(** * joke-api-react-list: the joke list controller and its cache store

    A shallow embedding of
      - [src/utils/localStorage.js]      (module [LocalStorage]),
      - [src/components/JokeList.jsx]    (module [JokeList]),
      - the refactored component kept next to it, [unnamed/part_000],
        second document                   (module [JokeListRefactored]),
    over a small model of the JavaScript values the code manipulates. *)

From Stdlib Require Import ZArith List String Ascii Bool Lia DecimalString.
From stdpp Require Import base gmap strings.

Import ListNotations.
Set Warnings "-register-all".
Local Open Scope string_scope.
Local Open Scope Z_scope.

(* ===================================================================== *)
(** ** JavaScript values *)
(* ===================================================================== *)

Module Js.

(** The values that travel through the program: what [JSON.parse] and
    [response.json()] produce, plus [undefined].  Numbers that occur in
    the program are integers (ids, lengths, status codes, epoch
    milliseconds), so the carrier is [Z].  An object is the list of its
    own enumerable properties in enumeration order, with distinct keys;
    the prototype chain is left out: none of the property names this
    program reads is an inherited one. *)
Inductive value : Type :=
| VUndefined
| VNull
| VBool (b : bool)
| VNum (n : Z)
| VStr (s : string)
| VArr (items : list value)
| VObj (props : list (string * value)).

(** Exceptions are [Error] objects; the program only ever reads their
    [message]. *)
Inductive exn : Type :=
| Error (message : string)
| TypeError (message : string)
| SyntaxError (message : string)
| QuotaExceededError (message : string).

Definition message (e : exn) : string :=
  match e with
  | Error m | TypeError m | SyntaxError m | QuotaExceededError m => m
  end.

(** Outcome of an expression that may throw. *)
Inductive result (A : Type) : Type :=
| Ok (a : A)
| Thrown (e : exn).
Arguments Ok {A} a.
Arguments Thrown {A} e.

Definition rbind {A B} (r : result A) (k : A -> result B) : result B :=
  match r with
  | Ok a => k a
  | Thrown e => Thrown e
  end.

Notation "'let?' x ':=' c 'in' k" := (rbind c (fun x => k))
  (at level 10, x name, c at level 100, k at level 200).

(** [arr.map(f)] for a callback that may throw: left to right, stopping
    at the first exception. *)
Fixpoint map_result {A B} (f : A -> result B) (l : list A) : result (list B) :=
  match l with
  | [] => Ok []
  | x :: l' =>
      let? y := f x in
      let? ys := map_result f l' in
      Ok (y :: ys)
  end.

(** ToBoolean. *)
Definition truthy (v : value) : bool :=
  match v with
  | VUndefined | VNull => false
  | VBool b => b
  | VNum n => negb (n =? 0)
  | VStr s => negb (String.eqb s "")
  | VArr _ | VObj _ => true
  end.

(** [a || b] *)
Definition or_else (a b : value) : value := if truthy a then a else b.

(** [a && b] *)
Definition and_then (a b : value) : value := if truthy a then b else a.

(** Decimal rendering of an integer, as [Number.prototype.toString]
    gives it for integers of ordinary size. *)
Definition Z_to_string (n : Z) : string := NilZero.string_of_int (Z.to_int n).

(** [arr.join(sep)] on strings. *)
Fixpoint join (sep : string) (l : list string) : string :=
  match l with
  | [] => ""
  | [x] => x
  | x :: l' => x +:+ sep +:+ join sep l'
  end.

(** ToString. *)
Fixpoint ToString (v : value) : string :=
  match v with
  | VUndefined => "undefined"
  | VNull => "null"
  | VBool true => "true"
  | VBool false => "false"
  | VNum n => Z_to_string n
  | VStr s => s
  | VArr l =>
      join "," (map (fun x => match x with
                              | VUndefined | VNull => ""
                              | _ => ToString x
                              end) l)
  | VObj _ => "[object Object]"
  end.

(** Own property lookup in an object's property list. *)
Fixpoint lookup_prop (k : string) (ps : list (string * value)) : value :=
  match ps with
  | [] => VUndefined
  | (k', v) :: ps' => if String.eqb k k' then v else lookup_prop k ps'
  end.

(** [v.k] for the identifier-named properties the program reads. Reading
    a property of [null] or [undefined] throws; arrays and strings have
    [length]; everything else not found is [undefined]. The message text
    of engine-raised errors is the engine's (V8's here). *)
Definition get (v : value) (k : string) : result value :=
  match v with
  | VUndefined =>
      Thrown (TypeError ("Cannot read properties of undefined (reading '" +:+ k +:+ "')"))
  | VNull =>
      Thrown (TypeError ("Cannot read properties of null (reading '" +:+ k +:+ "')"))
  | VObj ps => Ok (lookup_prop k ps)
  | VArr l =>
      Ok (if String.eqb k "length" then VNum (Z.of_nat (List.length l)) else VUndefined)
  | VStr s =>
      Ok (if String.eqb k "length" then VNum (Z.of_nat (String.length s)) else VUndefined)
  | VBool _ | VNum _ => Ok VUndefined
  end.

(** The characters of a string as one-character strings. *)
Fixpoint chars (s : string) : list string :=
  match s with
  | EmptyString => []
  | String c s' => String c EmptyString :: chars s'
  end.

(** [v[i]] for a numeric index [i] on a value that is not [null] or
    [undefined]: the element of an array, the character of a string, the
    property named by the decimal index of an object. *)
Definition get_index (v : value) (i : Z) : result value :=
  match v with
  | VUndefined =>
      Thrown (TypeError ("Cannot read properties of undefined (reading '" +:+ Z_to_string i +:+ "')"))
  | VNull =>
      Thrown (TypeError ("Cannot read properties of null (reading '" +:+ Z_to_string i +:+ "')"))
  | VArr l =>
      Ok (if i <? 0 then VUndefined else nth (Z.to_nat i) l VUndefined)
  | VStr s =>
      Ok (if i <? 0 then VUndefined
          else match nth_error (chars s) (Z.to_nat i) with
               | Some c => VStr c
               | None => VUndefined
               end)
  | VObj ps => Ok (lookup_prop (Z_to_string i) ps)
  | VBool _ | VNum _ => Ok VUndefined
  end.

(** [Array.isArray(v)] *)
Definition isArray (v : value) : bool :=
  match v with VArr _ => true | _ => false end.

(** Pairs an array's elements with their decimal indices, from [i]. *)
Fixpoint indexed {A} (i : nat) (l : list A) : list (string * A) :=
  match l with
  | [] => []
  | x :: l' => (Z_to_string (Z.of_nat i), x) :: indexed (S i) l'
  end.

(** [Object.entries(v)]: throws on [null] and [undefined]; index-keyed
    for arrays and strings; empty for numbers and booleans. *)
Definition Object_entries (v : value) : result (list (string * value)) :=
  match v with
  | VUndefined | VNull =>
      Thrown (TypeError "Cannot convert undefined or null to object")
  | VObj ps => Ok ps
  | VArr l => Ok (indexed 0 l)
  | VStr s => Ok (indexed 0 (map VStr (chars s)))
  | VBool _ | VNum _ => Ok []
  end.

(** [Object.values(v)] *)
Definition Object_values (v : value) : result (list value) :=
  let? es := Object_entries v in Ok (map snd es).

(** [s.substring(start, end)] for non-negative integer arguments: both
    are clamped to the length and swapped when out of order. *)
Definition substring (s : string) (from to : nat) : string :=
  let n := String.length s in
  let a := Nat.min from n in
  let b := Nat.min to n in
  String.substring (Nat.min a b) (Nat.max a b - Nat.min a b) s.

(** [v.substring(a, b)] as a method call on an arbitrary value: only
    strings have the method. *)
Definition call_substring (what : string) (v : value) (from to : nat) : result string :=
  match v with
  | VStr s => Ok (substring s from to)
  | VUndefined =>
      Thrown (TypeError "Cannot read properties of undefined (reading 'substring')")
  | VNull =>
      Thrown (TypeError "Cannot read properties of null (reading 'substring')")
  | _ => Thrown (TypeError (what +:+ ".substring is not a function"))
  end.

(** [v === 'lit'] *)
Definition strict_eq_str (v : value) (lit : string) : bool :=
  match v with
  | VStr s => String.eqb s lit
  | _ => false
  end.

End Js.


(* ===================================================================== *)
(** ** React elements *)
(* ===================================================================== *)

Module React.
Import Js.

(** What a JSX expression evaluates to: an element with its props and
    children; a child is literal text, the value of a [{...}]
    expression, or another element. React draws nothing for a child
    that is [false], [null] or [undefined]. *)
Inductive node : Type :=
| Text (s : string)
| Expr (v : value)
| Element (tag : string) (props : list (string * value)) (children : list node)
| Fragment (children : list node).

Definition className (c : string) : string * value := ("className", VStr c).

(** The first element, in document order, whose [className] is [c]. *)
Fixpoint find_class (c : string) (n : node) : option node :=
  let first_in :=
    fix first_in (l : list node) : option node :=
      match l with
      | [] => None
      | x :: l' =>
          match find_class c x with
          | Some r => Some r
          | None => first_in l'
          end
      end in
  match n with
  | Text _ | Expr _ => None
  | Element _ props children =>
      if strict_eq_str (lookup_prop "className" props) c then Some n
      else first_in children
  | Fragment children => first_in children
  end.

End React.

Import Js.
Import React.

(* ===================================================================== *)
(** ** The browser around the program *)
(* ===================================================================== *)

(** What [await fetch(url)] settles to when it does not reject: the
    fields of the response the program reads, and the outcome of
    [await response.json()]. *)
Record Response : Type := mkResponse {
  ok : bool;
  status : Z;
  json : result value
}.

(** The built-ins and the outside world, which the program only calls.
    [fetch n url] is the outcome of the request issued after [n] earlier
    ones (a rejection is [Thrown]); [Date_now n] is what the clock shows
    at its [n]-th reading; [Date_toLocaleString v] is
    [new Date(v).toLocaleString()]; [StringToNumber] is ToNumber on
    strings, with [None] for NaN; [quota_accepts items k v] tells whether
    [localStorage.setItem(k, v)] fits when the store holds [items]. *)
Class Host : Type := mkHost {
  JSON_parse : string -> result value;
  JSON_stringify : value -> string;
  StringToNumber : string -> option Z;
  Date_toLocaleString : value -> string;
  Date_now : nat -> Z;
  quota_accepts : gmap string string -> string -> string -> bool;
  fetch : nat -> string -> result Response
}.

(* ===================================================================== *)
(** ** src/utils/localStorage.js *)
(* ===================================================================== *)

Module LocalStorage.

Section Store.
Context {host : Host}.

(** [localStorage.getItem(key)]: [null] when the key is not set. *)
Definition getItem (key : string) (items : gmap string string) : value :=
  match items !! key with
  | Some s => VStr s
  | None => VNull
  end.

(** [localStorage.setItem(key, v)]: throws when the quota is exceeded
    and then leaves the store as it was. *)
Definition setItem (key v : string) (items : gmap string string)
  : result (gmap string string) :=
  if quota_accepts items key v then Ok (<[key := v]> items)
  else Thrown (QuotaExceededError "The quota has been exceeded.").

(** [localStorage.removeItem(key)] *)
Definition removeItem (key : string) (items : gmap string string)
  : gmap string string :=
  delete key items.

(** [loadJokesFromStorage]: the parsed item, or [null] when the key is
    unset, holds the empty string, or does not parse (the exception is
    logged and swallowed). *)
Definition loadJokesFromStorage (key : string) (items : gmap string string) : value :=
  let item := getItem key items in
  match (if truthy item then JSON_parse (ToString item) else Ok VNull) with
  | Ok v => v
  | Thrown _ => VNull
  end.

(** [saveJokesToStorage]: a failed write is logged and swallowed. *)
Definition saveJokesToStorage (key : string) (data : value)
  (items : gmap string string) : gmap string string :=
  match setItem key (JSON_stringify data) items with
  | Ok items' => items'
  | Thrown _ => items
  end.

(** [clearJokesFromStorage]: [removeItem] has nothing to throw, the
    handler around it is never entered. *)
Definition clearJokesFromStorage (key : string) (items : gmap string string)
  : gmap string string :=
  removeItem key items.

End Store.

End LocalStorage.

(* ===================================================================== *)
(** ** src/components/JokeList.jsx *)
(* ===================================================================== *)

Module JokeList.

Definition CATEGORIES : list string :=
  ["Programming"; "Miscellaneous"; "Dark"; "Pun"; "Spooky"; "Christmas"].

(** [limitAttributes]: the reduced copy of a joke that goes to
    localStorage. The object literal's fields are evaluated in source
    order; [.substring] is a method call and throws on a text that is
    not a string. *)
Definition limitAttributes (joke : value) : result value :=
  let? id := get joke "id" in
  let? type := get joke "type" in
  let? summary :=
    (if strict_eq_str type "twopart" then
       let? setup := get joke "setup" in
       let? s := call_substring "joke.setup" setup 0 50 in
       Ok (s +:+ "...")
     else
       let? text := get joke "joke" in
       let? s := call_substring "joke.joke" text 0 50 in
       Ok (s +:+ "...")) in
  let? category := get joke "category" in
  let? type' := get joke "type" in
  Ok (VObj [("id", id); ("summary", VStr summary);
            ("category", category); ("type", type')]).

(** The normalisation step of [fetchJokes] (source lines 87-93):
    [data.jokes] when it is an array, [[data]] when [data.joke] or
    [data.setup] is truthy, the empty array otherwise. *)
Definition normalize (data : value) : result (list value) :=
  let? jokes := get data "jokes" in
  if truthy (and_then jokes (VBool (isArray jokes))) then
    match jokes with
    | VArr l => Ok l
    | _ => Ok []   (* not reached: the test has made sure of an array *)
    end
  else
    let? joke := get data "joke" in
    let? setup := (if truthy joke then Ok joke else get data "setup") in
    if truthy setup then Ok [data] else Ok [].

(** The callback of [jokesArray.map] (source lines 101-109). *)
Definition processJoke (joke : value) : result value :=
  let? id := get joke "id" in
  let? text := get joke "joke" in
  let? setup := get joke "setup" in
  let? delivery := get joke "delivery" in
  let? category := get joke "category" in
  let? type := get joke "type" in
  let? flags := get joke "flags" in
  Ok (VObj [("id", id);
            ("joke", or_else text VNull);
            ("setup", or_else setup VNull);
            ("delivery", or_else delivery VNull);
            ("category", category);
            ("type", type);
            ("flags", flags)]).

(** *** Component state and the world it runs in *)

(** The six [useState] cells. *)
Record State : Type := mkState {
  jokes : value;
  loading : bool;
  error : option string;
  category : string;
  fromCache : bool;
  lastUpdated : option string
}.

Definition initialState : State :=
  {| jokes := VArr []; loading := false; error := None;
     category := "Programming"; fromCache := false; lastUpdated := None |}.

(** The component state, the contents of localStorage, the URLs
    requested so far (oldest first) and the number of clock readings so
    far. *)
Record World : Type := mkWorld {
  ui : State;
  storage : gmap string string;
  requests : list string;
  clock_reads : nat
}.

(** Statements: they change the world and may throw. The world reached
    when an exception is thrown is kept, as a [catch] block sees it. *)
Definition M (A : Type) : Type := World -> result A * World.

Definition ret {A} (a : A) : M A := fun w => (Ok a, w).

Definition bind {A B} (c : M A) (k : A -> M B) : M B :=
  fun w =>
    match c w with
    | (Ok a, w') => k a w'
    | (Thrown e, w') => (Thrown e, w')
    end.

Definition throw {A} (e : exn) : M A := fun w => (Thrown e, w).

Definition lift {A} (r : result A) : M A := fun w => (r, w).

Notation "'let!' x ':=' c 'in' k" := (bind c (fun x => k))
  (at level 10, x name, c at level 100, k at level 200).
Notation "'do!' c 'in' k" := (bind c (fun _ => k))
  (at level 10, c at level 100, k at level 200).

(** [try { body } catch (e) { handler(e) } finally { final }] *)
Definition try_catch_finally (body : M unit) (handler : exn -> M unit)
  (final : M unit) : M unit :=
  fun w =>
    match body w with
    | (Ok _, w1) => final w1
    | (Thrown e, w1) =>
        match handler e w1 with
        | (Ok _, w2) => final w2
        | (Thrown e', w2) =>
            match final w2 with
            | (Ok _, w3) => (Thrown e', w3)
            | (Thrown e'', w3) => (Thrown e'', w3)
            end
        end
    end.

Definition modify_ui (f : State -> State) : M unit :=
  fun w => (Ok tt, {| ui := f (ui w); storage := storage w;
                      requests := requests w; clock_reads := clock_reads w |}).

Definition setJokes (v : value) : M unit :=
  modify_ui (fun s => {| jokes := v; loading := loading s; error := error s;
                         category := category s; fromCache := fromCache s;
                         lastUpdated := lastUpdated s |}).

Definition setLoading (b : bool) : M unit :=
  modify_ui (fun s => {| jokes := jokes s; loading := b; error := error s;
                         category := category s; fromCache := fromCache s;
                         lastUpdated := lastUpdated s |}).

Definition setError (e : option string) : M unit :=
  modify_ui (fun s => {| jokes := jokes s; loading := loading s; error := e;
                         category := category s; fromCache := fromCache s;
                         lastUpdated := lastUpdated s |}).

Definition setCategory (c : string) : M unit :=
  modify_ui (fun s => {| jokes := jokes s; loading := loading s; error := error s;
                         category := c; fromCache := fromCache s;
                         lastUpdated := lastUpdated s |}).

Definition setFromCache (b : bool) : M unit :=
  modify_ui (fun s => {| jokes := jokes s; loading := loading s; error := error s;
                         category := category s; fromCache := b;
                         lastUpdated := lastUpdated s |}).

Definition setLastUpdated (t : string) : M unit :=
  modify_ui (fun s => {| jokes := jokes s; loading := loading s; error := error s;
                         category := category s; fromCache := fromCache s;
                         lastUpdated := Some t |}).

Definition with_storage (items : gmap string string) (w : World) : World :=
  {| ui := ui w; storage := items; requests := requests w;
     clock_reads := clock_reads w |}.

Section Controller.
Context {host : Host}.

(** [Date.now()] *)
Definition now : M Z :=
  fun w => (Ok (Date_now (clock_reads w)),
            {| ui := ui w; storage := storage w; requests := requests w;
               clock_reads := S (clock_reads w) |}).

(** [await fetch(url)] *)
Definition await_fetch (url : string) : M Response :=
  fun w => (fetch (List.length (requests w)) url,
            {| ui := ui w; storage := storage w;
               requests := requests w ++ [url];
               clock_reads := clock_reads w |}).

Definition localStorage_getItem (key : string) : M value :=
  fun w => (Ok (LocalStorage.getItem key (storage w)), w).

Definition localStorage_setItem (key v : string) : M unit :=
  fun w =>
    match LocalStorage.setItem key v (storage w) with
    | Ok items => (Ok tt, with_storage items w)
    | Thrown e => (Thrown e, w)
    end.

Definition localStorage_removeItem (key : string) : M unit :=
  fun w => (Ok tt, with_storage (LocalStorage.removeItem key (storage w)) w).

Definition loadJokesFromStorage (key : string) : M value :=
  fun w => (Ok (LocalStorage.loadJokesFromStorage key (storage w)), w).

Definition saveJokesToStorage (key : string) (data : value) : M unit :=
  fun w => (Ok tt, with_storage (LocalStorage.saveJokesToStorage key data (storage w)) w).

Definition clearJokesFromStorage (key : string) : M unit :=
  fun w => (Ok tt, with_storage (LocalStorage.clearJokesFromStorage key (storage w)) w).

(** ToNumber, through the host for strings. *)
Definition ToNumber (v : value) : option Z :=
  match v with
  | VUndefined => None
  | VNull => Some 0
  | VBool b => Some (if b then 1 else 0)
  | VNum n => Some n
  | VStr s => StringToNumber s
  | VArr _ | VObj _ => StringToNumber (ToString v)
  end.

(** [v > 0] *)
Definition gt_zero (v : value) : bool :=
  match ToNumber v with
  | Some n => 0 <? n
  | None => false
  end.

(** [cachedJokes && cachedJokes.length > 0] as the condition of an
    [if]. *)
Definition usable (cachedJokes : value) : bool :=
  if truthy cachedJokes then
    match get cachedJokes "length" with
    | Ok len => gt_zero len
    | Thrown _ => false
    end
  else false.

Definition storageKeyOf (selectedCategory : string) : string :=
  "jokes:" +:+ selectedCategory.

Definition timestampKeyOf (selectedCategory : string) : string :=
  storageKeyOf selectedCategory +:+ ":timestamp".

Definition apiUrlOf (selectedCategory : string) : string :=
  "https://v2.jokeapi.dev/joke/" +:+ selectedCategory
    +:+ "?type=single,twopart&amount=50".

(** The early-return branch of [fetchJokes] (source lines 51-57). *)
Definition serve_from_cache (storageKey : string) (cachedJokes : value) : M unit :=
  do! setJokes cachedJokes in
  do! setFromCache true in
  let! stamp := localStorage_getItem (storageKey +:+ ":timestamp") in
  let! when := (if truthy stamp then ret stamp
                else let! t := now in ret (VNum t)) in
  do! setLastUpdated (Date_toLocaleString when) in
  setLoading false.

(** The [try] block of [fetchJokes] (source lines 68-120). *)
Definition fetch_and_store (storageKey selectedCategory : string) : M unit :=
  let apiUrl := apiUrlOf selectedCategory in
  let! response := await_fetch apiUrl in
  do! (if negb (ok response)
       then throw (Error ("API responded with status: " +:+ Z_to_string (status response)))
       else ret tt) in
  let! data := lift (json response) in
  let! err := lift (get data "error") in
  do! (if truthy err
       then let! msg := lift (get data "message") in
            throw (Error (ToString (or_else msg (VStr "Unknown API error"))))
       else ret tt) in
  let! jokesArray := lift (normalize data) in
  do! (if (List.length jokesArray =? 0)%nat
       then throw (Error "No jokes found in the selected category")
       else ret tt) in
  let! processedJokes := lift (map_result processJoke jokesArray) in
  do! setJokes (VArr processedJokes) in
  let! t := now in
  do! setLastUpdated (Date_toLocaleString (VNum t)) in
  let! limitedJokes := lift (map_result limitAttributes processedJokes) in
  do! saveJokesToStorage storageKey (VArr limitedJokes) in
  let! t' := now in
  localStorage_setItem (storageKey +:+ ":timestamp") (Z_to_string t').

(** The [catch] block (source lines 121-125). *)
Definition on_error (e : exn) : M unit :=
  do! setError (Some (message e)) in
  setJokes (VArr []).

(** [fetchJokes(selectedCategory, forceRefresh)] *)
Definition fetchJokes (selectedCategory : string) (forceRefresh : bool) : M unit :=
  let storageKey := storageKeyOf selectedCategory in
  let! cachedJokes :=
    (if negb forceRefresh then loadJokesFromStorage storageKey else ret VNull) in
  if negb forceRefresh && usable cachedJokes then
    serve_from_cache storageKey cachedJokes
  else
    do! setLoading true in
    do! setError None in
    do! setFromCache false in
    try_catch_finally
      (fetch_and_store storageKey selectedCategory)
      on_error
      (setLoading false).

(** [handleRefresh] *)
Definition handleRefresh : M unit :=
  fun w => fetchJokes (category (ui w)) true w.

(** [handleClearCache] *)
Definition handleClearCache : M unit :=
  fun w =>
    let category := category (ui w) in
    (do! clearJokesFromStorage ("jokes:" +:+ category) in
     do! localStorage_removeItem ("jokes:" +:+ category +:+ ":timestamp") in
     fetchJokes category true) w.

(** The effect run on mount and whenever [category] changes. *)
Definition categoryEffect : M unit :=
  fun w => fetchJokes (category (ui w)) false w.

(** *** A call in two steps

    [fetchJokes] is an async function: it runs at once up to
    [await fetch(apiUrl)] and goes on when the response is there. A
    caller that does not wait for it (the handlers, the effect) gets
    control back in between, with the request pending. *)

(** [fetch(apiUrl)], not yet awaited: the request is on its way and is
    known by its number. *)
Definition issue_request (url : string) : M (option nat) :=
  fun w => (Ok (Some (List.length (requests w))),
            {| ui := ui w; storage := storage w;
               requests := requests w ++ [url];
               clock_reads := clock_reads w |}).

(** The first step (source lines 44-73): [None] when the call has
    returned from cache, [Some n] when it waits for request [n]. *)
Definition fetchJokes_begin (selectedCategory : string) (forceRefresh : bool)
  : M (option nat) :=
  let storageKey := storageKeyOf selectedCategory in
  let! cachedJokes :=
    (if negb forceRefresh then loadJokesFromStorage storageKey else ret VNull) in
  if negb forceRefresh && usable cachedJokes then
    do! serve_from_cache storageKey cachedJokes in
    ret None
  else
    do! setLoading true in
    do! setError None in
    do! setFromCache false in
    issue_request (apiUrlOf selectedCategory).

(** What the [try] block does with the response (source lines 74-120). *)
Definition store_response (storageKey : string) (response : Response) : M unit :=
  do! (if negb (ok response)
       then throw (Error ("API responded with status: " +:+ Z_to_string (status response)))
       else ret tt) in
  let! data := lift (json response) in
  let! err := lift (get data "error") in
  do! (if truthy err
       then let! msg := lift (get data "message") in
            throw (Error (ToString (or_else msg (VStr "Unknown API error"))))
       else ret tt) in
  let! jokesArray := lift (normalize data) in
  do! (if (List.length jokesArray =? 0)%nat
       then throw (Error "No jokes found in the selected category")
       else ret tt) in
  let! processedJokes := lift (map_result processJoke jokesArray) in
  do! setJokes (VArr processedJokes) in
  let! t := now in
  do! setLastUpdated (Date_toLocaleString (VNum t)) in
  let! limitedJokes := lift (map_result limitAttributes processedJokes) in
  do! saveJokesToStorage storageKey (VArr limitedJokes) in
  let! t' := now in
  localStorage_setItem (storageKey +:+ ":timestamp") (Z_to_string t').

(** The second step, run when request [n] has settled: the rest of the
    [try] block, the [catch] block and the [finally] block. The wait for
    [response.json()] is not a step of its own: before it the call has
    written nothing, unless the response was not ok, and then the call is
    over. *)
Definition fetchJokes_settle (selectedCategory : string) (n : nat) : M unit :=
  try_catch_finally
    (let! response := lift (fetch n (apiUrlOf selectedCategory)) in
     store_response (storageKeyOf selectedCategory) response)
    on_error
    (setLoading false).

(** [handleCategoryChange], given [event.target.value]: the cell is
    written and [fetchJokes(newCategory)] is started, not awaited. *)
Definition handleCategoryChange (newCategory : string) : M unit :=
  do! setCategory newCategory in
  let! pending := fetchJokes_begin newCategory false in
  ret tt.

(** The effect, re-run after the render that follows a change of
    [category]: it starts [fetchJokes(category)] and does not await it
    either. *)
Definition categoryEffect_begin : M (option nat) :=
  fun w => fetchJokes_begin (category (ui w)) false w.

End Controller.

(** *** Rendering a row *)

(** The names listed in the flags element (source lines 197-200):
    [Object.entries(joke.flags || {}).filter(([_, value]) => value)
     .map(([key]) => key)]. *)
Definition shownFlags (flags : value) : result (list string) :=
  let? entries := Object_entries (or_else flags (VObj [])) in
  Ok (map fst (List.filter (fun kv => truthy (snd kv)) entries)).

(** [JokeRow({ index, style })], reading [jokes] and [fromCache] from the
    component state; [None] is the [null] it returns for a missing
    joke. *)
Definition JokeRow (s : State) (index : Z) (style : value) : result (option node) :=
  let? joke := get_index (jokes s) index in
  if negb (truthy joke) then Ok None
  else
    let? content :=
      (if fromCache s then
         let? summary := get joke "summary" in
         let? category := get joke "category" in
         let? id := get joke "id" in
         let? type := get joke "type" in
         Ok (Element "div" []
               [Element "p" [className "joke-summary"] [Expr summary];
                Element "div" [className "joke-meta"]
                  [Element "span" [className "joke-category"]
                     [Text "Category: "; Expr category];
                   Element "span" [className "joke-id"] [Text "ID: "; Expr id];
                   Element "span" [className "joke-type"] [Text "Type: "; Expr type]]])
       else
         let? type := get joke "type" in
         let? body :=
           (if strict_eq_str type "twopart" then
              let? setup := get joke "setup" in
              let? delivery := get joke "delivery" in
              Ok (Fragment [Element "p" [className "joke-setup"] [Expr setup];
                            Element "p" [className "joke-delivery"] [Expr delivery]])
            else
              let? text := get joke "joke" in
              Ok (Element "p" [className "joke-text"] [Expr text])) in
         let? category := get joke "category" in
         let? id := get joke "id" in
         let? flags := get joke "flags" in
         let? names := shownFlags flags in
         Ok (Element "div" []
               [body;
                Element "div" [className "joke-meta"]
                  [Element "span" [className "joke-category"]
                     [Text "Category: "; Expr category];
                   Element "span" [className "joke-id"] [Text "ID: "; Expr id];
                   Element "span" [className "joke-flags"]
                     [Expr (VStr (join ", " names))]]])) in
    Ok (Some (Element "div" [className "joke-item"; ("style", style)]
                [Element "div" [className "joke-content"] [content]])).

(** *** What the component shows below its controls *)

(** The [error] cell as the value the JSX tests and prints. *)
Definition errorValue (s : State) : value :=
  match error s with
  | Some m => VStr m
  | None => VNull
  end.

(** [v === 0] *)
Definition is_zero (v : value) : bool :=
  match v with
  | VNum n => n =? 0
  | _ => false
  end.

(** The conditional at the end of the returned JSX (source lines
    255-291): loading indicator, error message, empty message or list, in
    that order. The [List] element is kept with its props; its child is
    the row renderer [JokeRow]. *)
Definition statusPanel (s : State) : result node :=
  if loading s then
    Ok (Element "div" [className "loading-indicator"]
          [Element "div" [className "loading-spinner"] [];
           Element "p" [] [Text "Loading jokes..."]])
  else if truthy (errorValue s) then
    Ok (Element "div" [className "error-message"]
          [Text "Error: "; Expr (errorValue s)])
  else
    let? len := get (jokes s) "length" in
    if is_zero len then
      Ok (Element "div" [className "empty-message"]
            [Text "No jokes found in the selected category"])
    else
      Ok (Element "div" [className "virtualized-list-container"]
            [Element "div" [className "jokes-count"]
               [Text "Showing "; Expr len; Text " jokes"];
             Element "List" [className "virtualized-list"; ("height", VNum 500);
                             ("width", VStr "100%"); ("itemCount", len);
                             ("itemSize", VNum 150)] []]).

End JokeList.

(* ===================================================================== *)
(** ** unnamed/part_000, second document: the refactored component *)
(* ===================================================================== *)

(** [limitAttributes] (lines 279-287), [JokeRow] (lines 409-455) and the
    controller (lines 297-406). The normalisation, the record mapping and
    the [catch] block have the same text as in [JokeList] and are taken
    from there. *)
Module JokeListRefactored.

Definition STORAGE_PREFIX : string := "jokes".
Definition JOKES_PER_FETCH : Z := 50.

(** [limitAttributes]: an absent or empty text gives an empty summary. *)
Definition limitAttributes (joke : value) : result value :=
  let? type := get joke "type" in
  let? summaryText :=
    (if strict_eq_str type "twopart" then get joke "setup" else get joke "joke") in
  let? id := get joke "id" in
  let? summary :=
    (if truthy summaryText then
       let? s := call_substring "summaryText" summaryText 0 50 in
       Ok (s +:+ "...")
     else Ok "") in
  let? category := get joke "category" in
  let? type' := get joke "type" in
  Ok (VObj [("id", id); ("summary", VStr summary);
            ("category", category); ("type", type')]).

(** The flags child of the meta line (lines 441-448):
    [joke.flags && Object.values(joke.flags).some(flag => flag) && <span/>].
    When the guard fails the child is the falsy value the guard
    evaluated to, and no element is made. *)
Definition flagsChild (flags : value) : result node :=
  if truthy flags then
    let? values := Object_values flags in
    if existsb truthy values then
      let? entries := Object_entries flags in
      Ok (Element "span" [className "joke-flags"]
            [Text "Flags: ";
             Expr (VStr (join ", "
                     (map fst (List.filter (fun kv => truthy (snd kv)) entries))))])
    else Ok (Expr (VBool false))
  else Ok (Expr flags).

(** [JokeRow({ index, style })] over the [jokes] and [fromCache] cells. *)
Definition JokeRow (jokes : value) (fromCache : bool) (index : Z) (style : value)
  : result (option node) :=
  let? joke := get_index jokes index in
  if negb (truthy joke) then Ok None
  else
    let? content :=
      (if fromCache then
         let? summary := get joke "summary" in
         let? category := get joke "category" in
         let? id := get joke "id" in
         let? type := get joke "type" in
         Ok (Element "div" []
               [Element "p" [className "joke-summary"] [Expr summary];
                Element "div" [className "joke-meta"]
                  [Element "span" [className "joke-category"]
                     [Text "Category: "; Expr category];
                   Element "span" [className "joke-id"] [Text "ID: "; Expr id];
                   Element "span" [className "joke-type"] [Text "Type: "; Expr type]]])
       else
         let? type := get joke "type" in
         let? body :=
           (if strict_eq_str type "twopart" then
              let? setup := get joke "setup" in
              let? delivery := get joke "delivery" in
              Ok (Fragment [Element "p" [className "joke-setup"] [Expr setup];
                            Element "p" [className "joke-delivery"] [Expr delivery]])
            else
              let? text := get joke "joke" in
              Ok (Element "p" [className "joke-text"] [Expr text])) in
         let? category := get joke "category" in
         let? id := get joke "id" in
         let? flags := get joke "flags" in
         let? flagsNode := flagsChild flags in
         Ok (Element "div" []
               [body;
                Element "div" [className "joke-meta"]
                  [Element "span" [className "joke-category"]
                     [Text "Category: "; Expr category];
                   Element "span" [className "joke-id"] [Text "ID: "; Expr id];
                   flagsNode]])) in
    Ok (Some (Element "div" [className "joke-item"; ("style", style)]
                [Element "div" [className "joke-content"] [content]])).

(** *** The controller *)

Notation "'let!' x ':=' c 'in' k" := (JokeList.bind c (fun x => k))
  (at level 10, x name, c at level 100, k at level 200).
Notation "'do!' c 'in' k" := (JokeList.bind c (fun _ => k))
  (at level 10, c at level 100, k at level 200).

Section Controller.
Context {host : Host}.

(** The two [useMemo] keys. *)
Definition storageKeyOf (category : string) : string :=
  STORAGE_PREFIX +:+ ":" +:+ category.

Definition timestampKeyOf (category : string) : string :=
  storageKeyOf category +:+ ":timestamp".

(** [formatDate] *)
Definition formatDate (timestamp : value) : string :=
  Date_toLocaleString timestamp.

Definition apiUrlOf (category : string) : string :=
  "https://v2.jokeapi.dev/joke/" +:+ category
    +:+ "?type=single,twopart&amount=" +:+ Z_to_string JOKES_PER_FETCH.

(** [cachedJokes?.length > 0]: the optional chain gives [undefined] for
    [null] and [undefined]. *)
Definition usable (cachedJokes : value) : bool :=
  match (match cachedJokes with
         | VUndefined | VNull => Ok VUndefined
         | _ => get cachedJokes "length"
         end) with
  | Ok len => JokeList.gt_zero len
  | Thrown _ => false
  end.

(** The early-return branch (lines 314-319). *)
Definition serve_from_cache (cachedJokes cachedTimestamp : value) : JokeList.M unit :=
  do! JokeList.setJokes cachedJokes in
  do! JokeList.setFromCache true in
  let! when := (if truthy cachedTimestamp then JokeList.ret cachedTimestamp
                else let! t := JokeList.now in JokeList.ret (VNum t)) in
  do! JokeList.setLastUpdated (formatDate when) in
  JokeList.setLoading false.

(** The [try] block (lines 328-376): the clock is read once, and that
    reading is both shown and stored. *)
Definition fetch_and_store (category storageKey timestampKey : string)
  : JokeList.M unit :=
  let apiUrl := apiUrlOf category in
  let! response := JokeList.await_fetch apiUrl in
  do! (if negb (ok response)
       then JokeList.throw
              (Error ("API responded with status: " +:+ Z_to_string (status response)))
       else JokeList.ret tt) in
  let! data := JokeList.lift (json response) in
  let! err := JokeList.lift (get data "error") in
  do! (if truthy err
       then let! msg := JokeList.lift (get data "message") in
            JokeList.throw (Error (ToString (or_else msg (VStr "Unknown API error"))))
       else JokeList.ret tt) in
  let! jokesArray := JokeList.lift (JokeList.normalize data) in
  do! (if (List.length jokesArray =? 0)%nat
       then JokeList.throw (Error "No jokes found in the selected category")
       else JokeList.ret tt) in
  let! processedJokes :=
    JokeList.lift (map_result JokeList.processJoke jokesArray) in
  do! JokeList.setJokes (VArr processedJokes) in
  let! t := JokeList.now in
  do! JokeList.setLastUpdated (formatDate (VNum t)) in
  let! limitedJokes := JokeList.lift (map_result limitAttributes processedJokes) in
  do! JokeList.saveJokesToStorage storageKey (VArr limitedJokes) in
  JokeList.localStorage_setItem timestampKey (Z_to_string t).

(** [fetchJokes(forceRefresh)], closed over the current [category]. *)
Definition fetchJokes (forceRefresh : bool) : JokeList.M unit :=
  fun w =>
    let category := JokeList.category (JokeList.ui w) in
    let storageKey := storageKeyOf category in
    let timestampKey := timestampKeyOf category in
    (let! cachedJokes :=
       (if negb forceRefresh then JokeList.loadJokesFromStorage storageKey
        else JokeList.ret VNull) in
     let! cachedTimestamp :=
       (if negb forceRefresh then JokeList.localStorage_getItem timestampKey
        else JokeList.ret VNull) in
     if negb forceRefresh && usable cachedJokes then
       serve_from_cache cachedJokes cachedTimestamp
     else
       do! JokeList.setLoading true in
       do! JokeList.setError None in
       do! JokeList.setFromCache false in
       JokeList.try_catch_finally
         (fetch_and_store category storageKey timestampKey)
         JokeList.on_error
         (JokeList.setLoading false)) w.

(** [handleCategoryChange]: only the cell is written; the effect
    fetches. *)
Definition handleCategoryChange (newCategory : string) : JokeList.M unit :=
  JokeList.setCategory newCategory.

(** [handleRefresh] *)
Definition handleRefresh : JokeList.M unit := fetchJokes true.

(** [handleClearCache] *)
Definition handleClearCache : JokeList.M unit :=
  fun w =>
    let category := JokeList.category (JokeList.ui w) in
    (do! JokeList.clearJokesFromStorage (storageKeyOf category) in
     do! JokeList.localStorage_removeItem (timestampKeyOf category) in
     fetchJokes true) w.

(** The effect run on mount and whenever [category] changes. *)
Definition categoryEffect : JokeList.M unit := fetchJokes false.

End Controller.

End JokeListRefactored.

(* ===================================================================== *)
(** ** Vocabulary of the properties below *)
(* ===================================================================== *)

(** Whether an object carries an own property named [k], whatever its
    value. *)
Definition has_field (k : string) (v : value) : bool :=
  match v with
  | VObj ps => existsb (String.eqb k) (map fst ps)
  | _ => false
  end.

(** The text a record is summarised by: its [setup] when its type is
    ['twopart'], its [joke] otherwise. *)
Definition summarisedText (ps : list (string * value)) : value :=
  if strict_eq_str (lookup_prop "type" ps) "twopart"
  then lookup_prop "setup" ps
  else lookup_prop "joke" ps.

(** The reduced record with the given summary. *)
Definition shrunk (ps : list (string * value)) (summary : string) : value :=
  VObj [("id", lookup_prop "id" ps); ("summary", VStr summary);
        ("category", lookup_prop "category" ps); ("type", lookup_prop "type" ps)].

(** The flag entries a row enumerates: those of [joke.flags], none when
    the record has no flags. *)
Definition flagEntries (flags : value) : list (string * value) :=
  match Object_entries (or_else flags (VObj [])) with
  | Ok entries => entries
  | Thrown _ => []
  end.

(** [needle] occurs in [hay]. *)
Definition occurs_in (needle hay : string) : Prop :=
  exists before after, hay = before +:+ needle +:+ after.

(** ASCII lower-casing, to compare messages up to letter case. *)
Definition lower_ascii (c : ascii) : ascii :=
  let n := nat_of_ascii c in
  if ((65 <=? n) && (n <=? 90))%nat then ascii_of_nat (n + 32) else c.

Fixpoint lower (s : string) : string :=
  match s with
  | EmptyString => EmptyString
  | String c s' => String (lower_ascii c) (lower s')
  end.

(** A statement that issues no request. *)
Definition quiet {A} (c : JokeList.M A) : Prop :=
  forall w, JokeList.requests (snd (c w)) = JokeList.requests w.

(** The cache entry of a category does not short-cut the call: a refresh
    is forced, or what is stored under the key is not usable. *)
Definition goes_to_network {host : Host} (selectedCategory : string)
  (forceRefresh : bool) (w : JokeList.World) : Prop :=
  forceRefresh = true \/
  JokeList.usable
    (LocalStorage.loadJokesFromStorage (JokeList.storageKeyOf selectedCategory)
       (JokeList.storage w)) = false.

(** The component state in which the [try] block of [fetchJokes] starts. *)
Definition loadingState (s : JokeList.State) : JokeList.State :=
  {| JokeList.jokes := JokeList.jokes s;
     JokeList.loading := true;
     JokeList.error := None;
     JokeList.category := JokeList.category s;
     JokeList.fromCache := false;
     JokeList.lastUpdated := JokeList.lastUpdated s |}.

(** The world in which the [try] block of [fetchJokes] starts. *)
Definition loadingWorld (w : JokeList.World) : JokeList.World :=
  {| JokeList.ui := loadingState (JokeList.ui w);
     JokeList.storage := JokeList.storage w;
     JokeList.requests := JokeList.requests w;
     JokeList.clock_reads := JokeList.clock_reads w |}.

(** A raw record as the API documents it: an object whose summarised
    text is a non-empty string. *)
Definition populated (raw : value) : bool :=
  match raw with
  | VObj ps =>
      match summarisedText ps with
      | VStr s => negb (String.eqb s "")
      | _ => false
      end
  | _ => false
  end.

(** *** A sample browser, for worked instances *)

Definition quote : string := String (ascii_of_nat 34) EmptyString.

(** A plain JSON printer (no escaping). *)
Fixpoint sample_stringify (v : value) : string :=
  match v with
  | VUndefined | VNull => "null"
  | VBool true => "true"
  | VBool false => "false"
  | VNum n => Z_to_string n
  | VStr s => quote +:+ s +:+ quote
  | VArr l => "[" +:+ join "," (map sample_stringify l) +:+ "]"
  | VObj ps =>
      "{" +:+ join ","
        ((fix fields (ps : list (string * value)) : list string :=
            match ps with
            | [] => []
            | (k, x) :: ps' =>
                (quote +:+ k +:+ quote +:+ ":" +:+ sample_stringify x) :: fields ps'
            end) ps) +:+ "}"
  end.

(** A browser whose network always gives [answer], whose store is never
    full, whose clock starts at 1700000000000 and advances by one at each
    reading, and whose parser knows the texts of [known]. *)
Definition sampleHost (answer : result Response) (known : list value) : Host :=
  {| JSON_parse := fun text =>
       match List.find (fun v => String.eqb (sample_stringify v) text) known with
       | Some v => Ok v
       | None => Thrown (SyntaxError "Unexpected token")
       end;
     JSON_stringify := sample_stringify;
     StringToNumber := fun _ => None;
     Date_toLocaleString := fun v => "at " +:+ ToString v;
     Date_now := fun n => 1700000000000 + Z.of_nat n;
     quota_accepts := fun _ _ _ => true;
     fetch := fun _ _ => answer |}.

Definition sampleWorld (s : JokeList.State) (items : list (string * string))
  : JokeList.World :=
  {| JokeList.ui := s; JokeList.storage := list_to_map items;
     JokeList.requests := []; JokeList.clock_reads := 0 |}.

(** The state after an earlier fetch for "Dark" failed. *)
Definition failedState : JokeList.State :=
  {| JokeList.jokes := VArr []; JokeList.loading := false;
     JokeList.error := Some "Failed to fetch";
     JokeList.category := "Dark"; JokeList.fromCache := false;
     JokeList.lastUpdated := None |}.

Definition sampleShrunk : value :=
  VObj [("id", VNum 7); ("summary", VStr "A joke...");
        ("category", VStr "Dark"); ("type", VStr "single")].

Definition sampleRaw : value :=
  VObj [("id", VNum 1); ("type", VStr "single"); ("joke", VStr "why did...");
        ("category", VStr "Programming"); ("flags", VObj [("nsfw", VBool false)])].

(** Off line, with one shrunk record cached for "Dark". *)
Definition offlineHost : Host :=
  sampleHost (Thrown (TypeError "Failed to fetch")) [VArr [sampleShrunk]].

Definition storedItems : list (string * string) :=
  [("jokes:Dark", sample_stringify (VArr [sampleShrunk]));
   ("jokes:Dark:timestamp", "1699999999999")].

(** The API answers with HTTP 500. *)
Definition failingHost : Host :=
  sampleHost (Ok {| ok := false; status := 500;
                    json := Thrown (SyntaxError "Unexpected end of JSON input") |}) [].

(** The API answers with the body [{jokes: []}]. *)
Definition emptyHost : Host :=
  sampleHost (Ok {| ok := true; status := 200;
                    json := Ok (VObj [("jokes", VArr [])]) |}) [].

(** The API answers with one joke; the store holds an older entry. *)
Definition answeringHost : Host :=
  sampleHost (Ok {| ok := true; status := 200;
                    json := Ok (VObj [("jokes", VArr [sampleRaw])]) |}) [].

Definition staleItems : list (string * string) :=
  [("jokes:Programming", "stale"); ("jokes:Programming:timestamp", "1")].

(** *** Further vocabulary *)

(** A statement that leaves the observation [f] of the world as it
    was, whether it returns or throws. *)
Definition preserves {A B} (f : JokeList.World -> B) (c : JokeList.M A) : Prop :=
  forall w, f (snd (c w)) = f w.

(** The host's parser reads back what its printer wrote for [v], and
    the printed text is not empty. *)
Definition reads_back {host : Host} (v : value) : Prop :=
  JSON_stringify v <> "" /\ JSON_parse (JSON_stringify v) = Ok v.

(** Neither [null] nor [undefined]. *)
Definition defined (v : value) : bool :=
  match v with
  | VUndefined | VNull => false
  | _ => true
  end.

(** [s] ends with [suffix]. *)
Definition ends_with (suffix s : string) : Prop :=
  exists front, s = front +:+ suffix.

(** The world with another component state. *)
Definition with_ui (s : JokeList.State) (w : JokeList.World) : JokeList.World :=
  {| JokeList.ui := s; JokeList.storage := JokeList.storage w;
     JokeList.requests := JokeList.requests w;
     JokeList.clock_reads := JokeList.clock_reads w |}.

(** A host like [sampleHost] whose store takes the write of [k] only
    when [room k] holds. *)
Definition crampedHost (answer : result Response) (room : string -> bool) : Host :=
  {| JSON_parse := fun _ => Thrown (SyntaxError "Unexpected token");
     JSON_stringify := sample_stringify;
     StringToNumber := fun _ => None;
     Date_toLocaleString := fun v => "at " +:+ ToString v;
     Date_now := fun n => 1700000000000 + Z.of_nat n;
     quota_accepts := fun _ k _ => room k;
     fetch := fun _ _ => answer |}.

(** What [limitAttributes] makes of the processed [sampleRaw]. *)
Definition sampleLimited : value :=
  VObj [("id", VNum 1); ("summary", VStr "why did......");
        ("category", VStr "Programming"); ("type", VStr "single")].

(** What [processJoke] makes of [sampleRaw]. *)
Definition sampleProcessed : value :=
  VObj [("id", VNum 1); ("joke", VStr "why did..."); ("setup", VNull);
        ("delivery", VNull); ("category", VStr "Programming");
        ("type", VStr "single"); ("flags", VObj [("nsfw", VBool false)])].

(** The API answers with one joke, and the parser reads back the record
    stored for it. *)
Definition revisitHost : Host :=
  sampleHost (Ok {| ok := true; status := 200;
                    json := Ok (VObj [("jokes", VArr [sampleRaw])]) |})
    [VArr [sampleLimited]].

(** The API answers with an error body. *)
Definition refusingHost : Host :=
  sampleHost (Ok {| ok := true; status := 200;
                    json := Ok (VObj [("error", VBool true);
                                      ("message", VStr "No matching joke found")]) |}) [].

(** A two-part record without its setup, raw and processed. *)
Definition setuplessRaw : value :=
  VObj [("id", VNum 7); ("type", VStr "twopart"); ("delivery", VStr "Boo.")].

Definition setuplessProcessed : value :=
  VObj [("id", VNum 7); ("joke", VNull); ("setup", VNull);
        ("delivery", VStr "Boo."); ("category", VUndefined);
        ("type", VStr "twopart"); ("flags", VUndefined)].

(** The API answers with that record alone. *)
Definition setuplessHost : Host :=
  sampleHost (Ok {| ok := true; status := 200;
                    json := Ok (VObj [("jokes", VArr [setuplessRaw])]) |}) [].

(* ===================================================================== *)
(** ** Properties of the pure parts *)
(* ===================================================================== *)

Section StringFacts.

Lemma substring0_length (m : nat) (s : string) :
  String.length (String.substring 0 m s) = Nat.min m (String.length s).
Proof.
  revert s; induction m as [|m IH]; intros [|c s]; simpl; auto.
Qed.

Lemma substring0_prefix (m : nat) (s : string) :
  exists rest, s = String.substring 0 m s +:+ rest.
Proof.
  revert s; induction m as [|m IH]; intros [|c s]; simpl.
  - exists ""; reflexivity.
  - exists (String c s); reflexivity.
  - exists ""; reflexivity.
  - destruct (IH s) as [rest Hrest]. exists rest.
    change (String c s = String c (String.substring 0 m s +:+ rest)).
    f_equal. exact Hrest.
Qed.

Lemma substring0_all (m : nat) (s : string) :
  (String.length s <= m)%nat -> String.substring 0 m s = s.
Proof.
  revert s; induction m as [|m IH]; intros [|c s]; simpl; intros H; auto.
  - lia.
  - f_equal. apply IH. lia.
Qed.

(** [s.substring(0, n)] is the first [n] characters, or all of [s] when
    it is shorter. *)
Lemma substring_from_start (s : string) (n : nat) :
  Js.substring s 0 n = String.substring 0 (Nat.min n (String.length s)) s.
Proof.
  unfold Js.substring. simpl.
  rewrite Nat.sub_0_r. reflexivity.
Qed.

Lemma substring_from_start_length (s : string) (n : nat) :
  (String.length (Js.substring s 0 n) <= n)%nat.
Proof.
  rewrite substring_from_start, substring0_length. lia.
Qed.

Lemma substring_from_start_prefix (s : string) (n : nat) :
  exists rest, s = Js.substring s 0 n +:+ rest.
Proof.
  rewrite substring_from_start. apply substring0_prefix.
Qed.

Lemma substring_from_start_short (s : string) (n : nat) :
  (String.length s <= n)%nat -> Js.substring s 0 n = s.
Proof.
  intros H. rewrite substring_from_start. apply substring0_all. lia.
Qed.

End StringFacts.

Section Normalisation.

(** C5 (as amended). Normalisation of a response body [data]: its
    [jokes] value when that is an array; otherwise the one-element array
    holding [data] itself when [data.joke] or [data.setup] is truthy;
    otherwise the empty array. A [joke] or [setup] field that is present
    but falsy (an empty string, [null], [0], [false]) does not make the
    body count as a single joke. *)
Theorem normalize_by_truthiness (data jokes joke setup : value) :
  get data "jokes" = Ok jokes ->
  get data "joke" = Ok joke ->
  get data "setup" = Ok setup ->
  (forall l, jokes = VArr l -> JokeList.normalize data = Ok l) /\
  (isArray jokes = false -> truthy joke || truthy setup = true ->
   JokeList.normalize data = Ok [data]) /\
  (isArray jokes = false -> truthy joke || truthy setup = false ->
   JokeList.normalize data = Ok []).
Proof.
  intros Hjokes Hjoke Hsetup.
  unfold JokeList.normalize. rewrite Hjokes, Hjoke, Hsetup. simpl.
  repeat split.
  - intros l ->. reflexivity.
  - intros Harr Htruthy.
    assert (truthy (and_then jokes (VBool (isArray jokes))) = false) as ->.
    { unfold and_then. rewrite Harr. destruct (truthy jokes) eqn:E; auto. }
    destruct (truthy joke) eqn:E; simpl in *.
    + rewrite E. reflexivity.
    + rewrite Htruthy. reflexivity.
  - intros Harr Hfalsy.
    assert (truthy (and_then jokes (VBool (isArray jokes))) = false) as ->.
    { unfold and_then. rewrite Harr. destruct (truthy jokes) eqn:E; auto. }
    destruct (truthy joke) eqn:E; simpl in *; [discriminate|].
    rewrite Hfalsy. reflexivity.
Qed.

Lemma normalize_by_truthiness_witness :
  JokeList.normalize (VObj [("jokes", VArr [VNum 7])]) = Ok [VNum 7] /\
  JokeList.normalize (VObj [("setup", VStr "Knock knock")])
    = Ok [VObj [("setup", VStr "Knock knock")]] /\
  JokeList.normalize (VObj [("joke", VStr "")]) = Ok [].
Proof.
  split; [|split].
  - apply (normalize_by_truthiness (VObj [("jokes", VArr [VNum 7])])
             (VArr [VNum 7]) VUndefined VUndefined); reflexivity.
  - apply (normalize_by_truthiness (VObj [("setup", VStr "Knock knock")])
             VUndefined VUndefined (VStr "Knock knock")); reflexivity.
  - apply (normalize_by_truthiness (VObj [("joke", VStr "")])
             VUndefined (VStr "") VUndefined); reflexivity.
Defined.

(** C5, as first stated, fails: the body [{joke: ""}] has a [joke]
    field, yet it is normalised to the empty array, not wrapped. *)
Lemma normalize_empty_joke_not_wrapped :
  has_field "joke" (VObj [("joke", VStr "")]) = true /\
  JokeList.normalize (VObj [("joke", VStr "")]) = Ok [] /\
  JokeList.normalize (VObj [("joke", VStr "")]) <> Ok [VObj [("joke", VStr "")]].
Proof.
  repeat split; try reflexivity. discriminate.
Qed.

End Normalisation.

Section Shrinking.

Lemma get_object (ps : list (string * value)) (k : string) :
  get (VObj ps) k = Ok (lookup_prop k ps).
Proof. reflexivity. Qed.

(** On a record whose summarised text is a string, the component's
    [limitAttributes] succeeds with the truncated text and the marker. *)
Lemma limitAttributes_string (ps : list (string * value)) (s : string) :
  summarisedText ps = VStr s ->
  JokeList.limitAttributes (VObj ps)
    = Ok (shrunk ps (Js.substring s 0 50 +:+ "...")).
Proof.
  unfold summarisedText, JokeList.limitAttributes, shrunk.
  rewrite !get_object. simpl.
  destruct (strict_eq_str (lookup_prop "type" ps) "twopart");
    simpl; intros ->; reflexivity.
Qed.

(** The refactored [limitAttributes] agrees whenever that string is not
    empty. *)
Lemma limitAttributes_refactored_string (ps : list (string * value)) (s : string) :
  summarisedText ps = VStr s -> s <> "" ->
  JokeListRefactored.limitAttributes (VObj ps)
    = Ok (shrunk ps (Js.substring s 0 50 +:+ "...")).
Proof.
  unfold summarisedText, JokeListRefactored.limitAttributes, shrunk.
  rewrite !get_object. simpl.
  intros Htext Hne.
  assert (truthy (VStr s) = true) as Htruthy.
  { simpl. destruct s; [congruence | reflexivity]. }
  destruct (strict_eq_str (lookup_prop "type" ps) "twopart");
    simpl; rewrite Htext, Htruthy; reflexivity.
Qed.

(** C6 (as amended). For every full record whose summarised text (the
    setup of a two-part joke, the joke text otherwise) is a non-empty
    string, both versions of [limitAttributes] produce the record's id,
    category and type together with a summary made of the first at most
    50 characters of that text followed by "..."; the result has no other
    field, and two records that differ only in what is left out have the
    same projection. *)
Theorem limitAttributes_summary (ps : list (string * value)) (s : string) :
  summarisedText ps = VStr s ->
  s <> "" ->
  JokeList.limitAttributes (VObj ps)
    = Ok (shrunk ps (Js.substring s 0 50 +:+ "...")) /\
  JokeListRefactored.limitAttributes (VObj ps)
    = Ok (shrunk ps (Js.substring s 0 50 +:+ "...")) /\
  (String.length (Js.substring s 0 50) <= 50)%nat /\
  (exists rest, s = Js.substring s 0 50 +:+ rest) /\
  ((String.length s <= 50)%nat -> Js.substring s 0 50 = s) /\
  (forall delivery,
     JokeList.limitAttributes (VObj (("delivery", delivery) :: ps))
       = JokeList.limitAttributes (VObj ps)).
Proof.
  intros Htext Hne.
  split; [apply limitAttributes_string; exact Htext|].
  split; [apply limitAttributes_refactored_string; assumption|].
  split; [apply substring_from_start_length|].
  split; [apply substring_from_start_prefix|].
  split; [apply substring_from_start_short|].
  intros delivery.
  unfold JokeList.limitAttributes. rewrite !get_object. reflexivity.
Qed.

Lemma limitAttributes_summary_witness :
  JokeList.limitAttributes
    (VObj [("id", VNum 7); ("joke", VNull);
           ("setup", VStr "Why do programmers always mix up Halloween and Christmas?");
           ("delivery", VStr "Because Oct 31 = Dec 25.");
           ("category", VStr "Programming"); ("type", VStr "twopart");
           ("flags", VObj [("nsfw", VBool false)])])
  = Ok (VObj [("id", VNum 7);
              ("summary", VStr "Why do programmers always mix up Halloween and Chr...");
              ("category", VStr "Programming"); ("type", VStr "twopart")]).
Proof.
  apply (limitAttributes_summary
           [("id", VNum 7); ("joke", VNull);
            ("setup", VStr "Why do programmers always mix up Halloween and Christmas?");
            ("delivery", VStr "Because Oct 31 = Dec 25.");
            ("category", VStr "Programming"); ("type", VStr "twopart");
            ("flags", VObj [("nsfw", VBool false)])]
           "Why do programmers always mix up Halloween and Christmas?").
  - reflexivity.
  - discriminate.
Defined.

(** C6, as first stated, fails on a full record whose text is absent:
    for a two-part joke without setup the component's [limitAttributes]
    throws instead of producing a record, and the refactored one produces
    an empty summary, with no marker after it. *)
Lemma limitAttributes_absent_text :
  JokeList.processJoke (VObj [("id", VNum 7); ("type", VStr "twopart")])
    = Ok (VObj [("id", VNum 7); ("joke", VNull); ("setup", VNull);
                ("delivery", VNull); ("category", VUndefined);
                ("type", VStr "twopart"); ("flags", VUndefined)]) /\
  JokeList.limitAttributes
    (VObj [("id", VNum 7); ("joke", VNull); ("setup", VNull);
           ("delivery", VNull); ("category", VUndefined);
           ("type", VStr "twopart"); ("flags", VUndefined)])
    = Thrown (TypeError "Cannot read properties of null (reading 'substring')") /\
  JokeListRefactored.limitAttributes
    (VObj [("id", VNum 7); ("joke", VNull); ("setup", VNull);
           ("delivery", VNull); ("category", VUndefined);
           ("type", VStr "twopart"); ("flags", VUndefined)])
    = Ok (VObj [("id", VNum 7); ("summary", VStr "");
                ("category", VUndefined); ("type", VStr "twopart")]).
Proof.
  repeat split.
Qed.

End Shrinking.

Section Rows.

Lemma get_truthy (v : value) (k : string) :
  truthy v = true -> exists x, get v k = Ok x.
Proof.
  destruct v; simpl; intros H; try discriminate; eauto.
Qed.

Lemma Object_entries_truthy (v : value) :
  truthy v = true -> exists es, Object_entries v = Ok es.
Proof.
  destruct v; simpl; intros H; try discriminate; eauto.
Qed.

(** [Object.entries(flags || {})] never throws. *)
Lemma Object_entries_or_empty (flags : value) :
  Object_entries (or_else flags (VObj [])) = Ok (flagEntries flags).
Proof.
  unfold flagEntries, or_else.
  destruct (truthy flags) eqn:E; [|reflexivity].
  destruct (Object_entries_truthy flags E) as [es Hes].
  rewrite Hes. reflexivity.
Qed.

Lemma flagEntries_truthy (flags : value) :
  truthy flags = true -> Object_entries flags = Ok (flagEntries flags).
Proof.
  intros H. rewrite <- Object_entries_or_empty. unfold or_else. rewrite H.
  reflexivity.
Qed.

Lemma flagEntries_falsy (flags : value) :
  truthy flags = false -> flagEntries flags = [].
Proof.
  intros H. unfold flagEntries, or_else. rewrite H. reflexivity.
Qed.

Lemma shownFlags_eq (flags : value) :
  JokeList.shownFlags flags
    = Ok (map fst (List.filter (fun kv => truthy (snd kv)) (flagEntries flags))).
Proof.
  unfold JokeList.shownFlags. rewrite Object_entries_or_empty. reflexivity.
Qed.

Lemma existsb_truthy_values (es : list (string * value)) :
  existsb truthy (map snd es) = false ->
  List.filter (fun kv => truthy (snd kv)) es = [].
Proof.
  induction es as [|[k v] es IH]; simpl; [reflexivity|].
  destruct (truthy v); simpl; [discriminate | exact IH].
Qed.

(** The names kept by the filter are those of the truthy entries. *)
Lemma shown_names_spec (es : list (string * value)) (k : string) :
  In k (map fst (List.filter (fun kv => truthy (snd kv)) es)) <->
  exists v, In (k, v) es /\ truthy v = true.
Proof.
  rewrite in_map_iff. split.
  - intros [[k' v] [Hk Hin]]. simpl in Hk. subst k'.
    apply List.filter_In in Hin. simpl in Hin. destruct Hin. eauto.
  - intros [v [Hin Hv]]. exists (k, v). split; [reflexivity|].
    apply List.filter_In. auto.
Qed.

(** The flags child made by the refactored row. *)
Lemma flagsChild_eq (flags : value) :
  JokeListRefactored.flagsChild flags
  = Ok (if truthy flags then
          if existsb truthy (map snd (flagEntries flags)) then
            Element "span" [className "joke-flags"]
              [Text "Flags: ";
               Expr (VStr (join ", "
                       (map fst (List.filter (fun kv => truthy (snd kv))
                                   (flagEntries flags)))))]
          else Expr (VBool false)
        else Expr flags).
Proof.
  unfold JokeListRefactored.flagsChild, Object_values.
  destruct (truthy flags) eqn:E; [|reflexivity].
  rewrite (flagEntries_truthy flags E). simpl.
  destruct (existsb truthy (map snd (flagEntries flags))); reflexivity.
Qed.

(** C8 (as amended). A row drawn from a full record (not from cache)
    lists, joined by ", ", the names of exactly the flags whose value is
    truthy (for boolean flags: true). When no flag is true no name is
    shown: the component's row still contains its flags element, with
    empty text, while the refactored row contains no flags element at
    all. *)
Theorem JokeRow_flags (s : JokeList.State) (index : Z) (style joke flags : value) :
  get_index (JokeList.jokes s) index = Ok joke ->
  truthy joke = true ->
  JokeList.fromCache s = false ->
  get joke "flags" = Ok flags ->
  let names :=
    map fst (List.filter (fun kv => truthy (snd kv)) (flagEntries flags)) in
  (forall k, In k names <->
             exists v, In (k, v) (flagEntries flags) /\ truthy v = true) /\
  (exists row,
     JokeList.JokeRow s index style = Ok (Some row) /\
     find_class "joke-flags" row
       = Some (Element "span" [className "joke-flags"]
                 [Expr (VStr (join ", " names))])) /\
  (exists row,
     JokeListRefactored.JokeRow (JokeList.jokes s) false index style
       = Ok (Some row) /\
     find_class "joke-flags" row
       = if existsb truthy (map snd (flagEntries flags)) then
           Some (Element "span" [className "joke-flags"]
                   [Text "Flags: "; Expr (VStr (join ", " names))])
         else None) /\
  (existsb truthy (map snd (flagEntries flags)) = false -> names = []).
Proof.
  intros Hjoke Htruthy Hfresh Hflags names.
  split; [intros k; apply shown_names_spec|].
  destruct (get_truthy joke "type" Htruthy) as [type Htype].
  destruct (get_truthy joke "setup" Htruthy) as [setup Hsetup].
  destruct (get_truthy joke "delivery" Htruthy) as [delivery Hdelivery].
  destruct (get_truthy joke "joke" Htruthy) as [text Htext].
  destruct (get_truthy joke "category" Htruthy) as [category Hcategory].
  destruct (get_truthy joke "id" Htruthy) as [id Hid].
  split; [|split].
  - unfold JokeList.JokeRow.
    rewrite Hjoke. cbn [rbind]. rewrite Htruthy, Hfresh. cbn [negb rbind].
    rewrite Htype. cbn [rbind].
    destruct (strict_eq_str type "twopart");
      rewrite ?Hsetup, ?Htext; cbn [rbind]; rewrite ?Hdelivery; cbn [rbind];
      rewrite Hcategory; cbn [rbind]; rewrite Hid; cbn [rbind];
      rewrite Hflags; cbn [rbind]; rewrite shownFlags_eq; cbn [rbind];
      eexists; (split; [reflexivity|]); reflexivity.
  - unfold JokeListRefactored.JokeRow.
    rewrite Hjoke. cbn [rbind]. rewrite Htruthy. cbn [negb rbind].
    rewrite Htype. cbn [rbind].
    destruct (strict_eq_str type "twopart");
      rewrite ?Hsetup, ?Htext; cbn [rbind]; rewrite ?Hdelivery; cbn [rbind];
      rewrite Hcategory; cbn [rbind]; rewrite Hid; cbn [rbind];
      rewrite Hflags; cbn [rbind]; rewrite flagsChild_eq; cbn [rbind];
      eexists; (split; [reflexivity|]);
      fold names;
      (destruct (truthy flags) eqn:E;
       [ destruct (existsb truthy (map snd (flagEntries flags))); reflexivity
       | rewrite (flagEntries_falsy flags E); reflexivity ]).
  - intros Hnone. unfold names.
    rewrite (existsb_truthy_values _ Hnone). reflexivity.
Qed.

Lemma JokeRow_flags_witness :
  exists row,
    JokeList.JokeRow
      {| JokeList.jokes :=
           VArr [VObj [("id", VNum 7); ("joke", VStr "A joke."); ("setup", VNull);
                       ("delivery", VNull); ("category", VStr "Misc");
                       ("type", VStr "single");
                       ("flags", VObj [("nsfw", VBool true); ("political", VBool false);
                                       ("explicit", VBool true)])]];
         JokeList.loading := false; JokeList.error := None;
         JokeList.category := "Miscellaneous"; JokeList.fromCache := false;
         JokeList.lastUpdated := None |} 0 VUndefined = Ok (Some row) /\
    find_class "joke-flags" row
      = Some (Element "span" [className "joke-flags"] [Expr (VStr "nsfw, explicit")]).
Proof.
  apply (JokeRow_flags
           {| JokeList.jokes :=
                VArr [VObj [("id", VNum 7); ("joke", VStr "A joke."); ("setup", VNull);
                            ("delivery", VNull); ("category", VStr "Misc");
                            ("type", VStr "single");
                            ("flags", VObj [("nsfw", VBool true); ("political", VBool false);
                                            ("explicit", VBool true)])]];
              JokeList.loading := false; JokeList.error := None;
              JokeList.category := "Miscellaneous"; JokeList.fromCache := false;
              JokeList.lastUpdated := None |}
           0 VUndefined
           (VObj [("id", VNum 7); ("joke", VStr "A joke."); ("setup", VNull);
                  ("delivery", VNull); ("category", VStr "Misc");
                  ("type", VStr "single");
                  ("flags", VObj [("nsfw", VBool true); ("political", VBool false);
                                  ("explicit", VBool true)])])
           (VObj [("nsfw", VBool true); ("political", VBool false);
                  ("explicit", VBool true)]));
    reflexivity.
Defined.

(** C8, as first stated, fails on the component's row: for a record none
    of whose flags is true the flags element is not left out, it is
    there with empty text. *)
Lemma JokeRow_empty_flags_element :
  exists row,
    JokeList.JokeRow
      {| JokeList.jokes :=
           VArr [VObj [("id", VNum 7); ("joke", VStr "A joke."); ("setup", VNull);
                       ("delivery", VNull); ("category", VStr "Misc");
                       ("type", VStr "single");
                       ("flags", VObj [("nsfw", VBool false); ("political", VBool false)])]];
         JokeList.loading := false; JokeList.error := None;
         JokeList.category := "Miscellaneous"; JokeList.fromCache := false;
         JokeList.lastUpdated := None |} 0 VUndefined = Ok (Some row) /\
    find_class "joke-flags" row
      = Some (Element "span" [className "joke-flags"] [Expr (VStr "")]) /\
    find_class "joke-flags" row <> None.
Proof.
  eexists. split; [reflexivity|]. split; [reflexivity | discriminate].
Qed.

(** C9. Whatever the index, the row looks up [jokes[index]]; when the
    index falls outside the jokes array the row is [null] and nothing is
    thrown. *)
Theorem JokeRow_out_of_range (s : JokeList.State) (index : Z) (style : value)
  (l : list value) :
  JokeList.jokes s = VArr l ->
  index < 0 \/ Z.of_nat (List.length l) <= index ->
  get_index (JokeList.jokes s) index = Ok VUndefined /\
  JokeList.JokeRow s index style = Ok None.
Proof.
  intros Hjokes Hrange.
  assert (get_index (JokeList.jokes s) index = Ok VUndefined) as Hget.
  { rewrite Hjokes. simpl.
    destruct (index <? 0) eqn:E; [reflexivity|].
    apply Z.ltb_ge in E.
    rewrite nth_overflow; [reflexivity | lia]. }
  split; [exact Hget|].
  unfold JokeList.JokeRow. rewrite Hget. reflexivity.
Qed.

Lemma JokeRow_out_of_range_witness :
  JokeList.JokeRow
    {| JokeList.jokes := VArr [VNum 1; VNum 2]; JokeList.loading := false;
       JokeList.error := None; JokeList.category := "Pun";
       JokeList.fromCache := true; JokeList.lastUpdated := None |}
    2 VUndefined = Ok None.
Proof.
  apply (JokeRow_out_of_range
           {| JokeList.jokes := VArr [VNum 1; VNum 2]; JokeList.loading := false;
              JokeList.error := None; JokeList.category := "Pun";
              JokeList.fromCache := true; JokeList.lastUpdated := None |}
           2 VUndefined [VNum 1; VNum 2]).
  - reflexivity.
  - right. simpl. lia.
Defined.

End Rows.

(* ===================================================================== *)
(** ** Properties of the controller *)
(* ===================================================================== *)

Section ControllerFacts.
Context {host : Host}.
Import JokeList.

(** *** Statements that issue no request *)

Lemma quiet_ret {A} (a : A) : quiet (ret a).
Proof. intros w. reflexivity. Qed.

Lemma quiet_throw {A} (e : exn) : quiet (@throw A e).
Proof. intros w. reflexivity. Qed.

Lemma quiet_lift {A} (r : result A) : quiet (lift r).
Proof. intros w. reflexivity. Qed.

Lemma quiet_bind {A B} (c : M A) (k : A -> M B) :
  quiet c -> (forall a, quiet (k a)) -> quiet (bind c k).
Proof.
  intros Hc Hk w. unfold bind.
  specialize (Hc w). destruct (c w) as [[a|e] w1]; simpl in *.
  - rewrite (Hk a w1). exact Hc.
  - exact Hc.
Qed.

Lemma quiet_if {A} (b : bool) (c1 c2 : M A) :
  quiet c1 -> quiet c2 -> quiet (if b then c1 else c2).
Proof. destruct b; auto. Qed.

Lemma quiet_modify_ui (f : State -> State) : quiet (modify_ui f).
Proof. intros w. reflexivity. Qed.

Lemma quiet_now : quiet now.
Proof. intros w. reflexivity. Qed.

Lemma quiet_getItem (key : string) : quiet (localStorage_getItem key).
Proof. intros w. reflexivity. Qed.

Lemma quiet_setItem (key v : string) : quiet (localStorage_setItem key v).
Proof.
  intros w. unfold localStorage_setItem.
  destruct (LocalStorage.setItem key v (storage w)); reflexivity.
Qed.

Lemma quiet_removeItem (key : string) : quiet (localStorage_removeItem key).
Proof. intros w. reflexivity. Qed.

Lemma quiet_load (key : string) : quiet (loadJokesFromStorage key).
Proof. intros w. reflexivity. Qed.

Lemma quiet_save (key : string) (data : value) : quiet (saveJokesToStorage key data).
Proof. intros w. reflexivity. Qed.

Lemma quiet_clear (key : string) : quiet (clearJokesFromStorage key).
Proof. intros w. reflexivity. Qed.

Lemma quiet_try (body : M unit) (handler : exn -> M unit) (final : M unit) :
  quiet body -> (forall e, quiet (handler e)) -> quiet final ->
  quiet (try_catch_finally body handler final).
Proof.
  intros Hb Hh Hf w. unfold try_catch_finally.
  specialize (Hb w). destruct (body w) as [[u|e] w1]; simpl in *.
  - rewrite (Hf w1). exact Hb.
  - specialize (Hh e w1). destruct (handler e w1) as [[u|e'] w2]; simpl in *.
    + rewrite (Hf w2). congruence.
    + specialize (Hf w2). destruct (final w2) as [[u|e''] w3]; simpl in *; congruence.
Qed.

Create HintDb quiet.
#[local] Hint Resolve quiet_ret quiet_throw quiet_lift quiet_modify_ui quiet_now
  quiet_getItem quiet_setItem quiet_removeItem quiet_load quiet_save quiet_clear
  : quiet.
#[local] Hint Extern 2 (quiet (bind _ _)) => apply quiet_bind; [|intros ?] : quiet.
#[local] Hint Extern 2 (quiet (if _ then _ else _)) => apply quiet_if : quiet.
#[local] Hint Extern 1 (quiet (setJokes _)) => apply quiet_modify_ui : quiet.
#[local] Hint Extern 1 (quiet (setLoading _)) => apply quiet_modify_ui : quiet.
#[local] Hint Extern 1 (quiet (setError _)) => apply quiet_modify_ui : quiet.
#[local] Hint Extern 1 (quiet (setFromCache _)) => apply quiet_modify_ui : quiet.
#[local] Hint Extern 1 (quiet (setLastUpdated _)) => apply quiet_modify_ui : quiet.
#[local] Hint Extern 1 (quiet (setCategory _)) => apply quiet_modify_ui : quiet.

Lemma quiet_on_error (e : exn) : quiet (on_error e).
Proof. unfold on_error. auto 10 with quiet. Qed.

Lemma quiet_serve_from_cache (key : string) (cached : value) :
  quiet (serve_from_cache key cached).
Proof. unfold serve_from_cache. auto 20 with quiet. Qed.

(** Everything in the [try] block after the request is answered. *)
Lemma fetch_and_store_requests (key selectedCategory : string) (w : World) :
  requests (snd (fetch_and_store key selectedCategory w))
    = (requests w ++ [apiUrlOf selectedCategory])%list.
Proof.
  unfold fetch_and_store.
  unfold bind at 1. unfold await_fetch at 1.
  destruct (fetch (List.length (requests w)) (apiUrlOf selectedCategory))
    as [response|e]; [|reflexivity].
  match goal with
  | |- requests (snd (?k ?w1)) = _ =>
      assert (quiet k) as Hq by auto 30 with quiet;
      rewrite (Hq w1)
  end.
  reflexivity.
Qed.

(** *** The two ways through [fetchJokes] *)

Lemma usable_nonempty_array (l : list value) :
  l <> [] -> usable (VArr l) = true.
Proof.
  destruct l as [|x l]; [congruence|]. intros _.
  unfold usable, gt_zero. simpl. reflexivity.
Qed.

(** With a usable cache entry and no forced refresh, the call is the
    early-return branch. *)
Lemma fetchJokes_hit (selectedCategory : string) (w : World) (cached : value) :
  LocalStorage.loadJokesFromStorage (storageKeyOf selectedCategory) (storage w)
    = cached ->
  usable cached = true ->
  fetchJokes selectedCategory false w
    = serve_from_cache (storageKeyOf selectedCategory) cached w.
Proof.
  intros Hload Husable.
  unfold fetchJokes, bind, loadJokesFromStorage. simpl.
  rewrite Hload, Husable. reflexivity.
Qed.

(** Otherwise it is the guarded request, started in the loading state. *)
Lemma fetchJokes_miss (selectedCategory : string) (forceRefresh : bool) (w : World) :
  goes_to_network selectedCategory forceRefresh w ->
  fetchJokes selectedCategory forceRefresh w
    = try_catch_finally
        (fetch_and_store (storageKeyOf selectedCategory) selectedCategory)
        on_error (setLoading false) (loadingWorld w).
Proof.
  intros [Hforce | Hmiss].
  - subst forceRefresh. reflexivity.
  - destruct forceRefresh; [reflexivity|].
    unfold fetchJokes, bind, loadJokesFromStorage. simpl.
    rewrite Hmiss. reflexivity.
Qed.

(** What the early-return branch leaves behind. *)
Lemma serve_from_cache_world (key : string) (cached : value) (w : World) :
  exists when reads,
    serve_from_cache key cached w
      = (Ok tt,
         {| ui := {| jokes := cached; loading := false; error := error (ui w);
                     category := category (ui w); fromCache := true;
                     lastUpdated := Some (Date_toLocaleString when) |};
            storage := storage w; requests := requests w;
            clock_reads := reads |}) /\
    when = (if truthy (LocalStorage.getItem (key +:+ ":timestamp") (storage w))
            then LocalStorage.getItem (key +:+ ":timestamp") (storage w)
            else VNum (Date_now (clock_reads w))).
Proof.
  unfold serve_from_cache, bind, localStorage_getItem. simpl.
  destruct (truthy (LocalStorage.getItem (key +:+ ":timestamp") (storage w)));
    simpl; eexists; eexists; split; reflexivity.
Qed.

(** The call never throws: every exception is caught inside. *)
Lemma fetchJokes_returns (selectedCategory : string) (forceRefresh : bool) (w : World) :
  fst (fetchJokes selectedCategory forceRefresh w) = Ok tt.
Proof.
  destruct (negb forceRefresh
            && usable (LocalStorage.loadJokesFromStorage
                         (storageKeyOf selectedCategory) (storage w))) eqn:E.
  - apply andb_true_iff in E as [Hforce Husable].
    apply negb_true_iff in Hforce. subst forceRefresh.
    rewrite (fetchJokes_hit _ _ _ eq_refl Husable).
    destruct (serve_from_cache_world (storageKeyOf selectedCategory)
                (LocalStorage.loadJokesFromStorage
                   (storageKeyOf selectedCategory) (storage w)) w)
      as (when & reads & Heq & _).
    rewrite Heq. reflexivity.
  - rewrite fetchJokes_miss.
    + unfold try_catch_finally.
      destruct (fetch_and_store _ _ _) as [[[]|e] w1]; reflexivity.
    + apply andb_false_iff in E as [Hforce | Hmiss].
      * left. apply negb_false_iff in Hforce. exact Hforce.
      * right. exact Hmiss.
Qed.

(** What the guarded request leaves behind when its [try] block throws. *)
Lemma failed_request_world (key selectedCategory : string) (w w1 : World) (e : exn) :
  fetch_and_store key selectedCategory w = (Thrown e, w1) ->
  try_catch_finally (fetch_and_store key selectedCategory) on_error
    (setLoading false) w
  = (Ok tt,
     {| ui := {| jokes := VArr []; loading := false;
                 error := Some (message e);
                 category := category (ui w1); fromCache := fromCache (ui w1);
                 lastUpdated := lastUpdated (ui w1) |};
        storage := storage w1; requests := requests w1;
        clock_reads := clock_reads w1 |}).
Proof.
  intros Hbody. unfold try_catch_finally. rewrite Hbody. reflexivity.
Qed.

Lemma append_length (a b : string) :
  String.length (a +:+ b) = (String.length a + String.length b)%nat.
Proof.
  induction a as [|c a IH]; [reflexivity|].
  change (S (String.length (a +:+ b)) = S (String.length a + String.length b)%nat).
  rewrite IH. reflexivity.
Qed.

Lemma storageKey_not_timestampKey (selectedCategory : string) :
  storageKeyOf selectedCategory <> timestampKeyOf selectedCategory.
Proof.
  unfold timestampKeyOf. intros H.
  apply (f_equal String.length) in H. rewrite append_length in H.
  simpl in H. lia.
Qed.

(** *** Cache hit *)

(** C1. For every category: when no refresh is forced and the cache
    store gives a non-empty array for the category's key, [fetchJokes]
    puts that array in [jokes], sets [fromCache], takes [lastUpdated]
    from the timestamp key (from the clock when that key is absent),
    clears [loading], and issues no request; the store is left as it
    was. *)
Theorem fetchJokes_cache_hit (selectedCategory : string) (w : World)
  (cached : list value) :
  LocalStorage.loadJokesFromStorage (storageKeyOf selectedCategory) (storage w)
    = VArr cached ->
  cached <> [] ->
  let w' := snd (fetchJokes selectedCategory false w) in
  fst (fetchJokes selectedCategory false w) = Ok tt /\
  jokes (ui w') = VArr cached /\
  fromCache (ui w') = true /\
  loading (ui w') = false /\
  (forall stamp,
     storage w !! timestampKeyOf selectedCategory = Some stamp -> stamp <> "" ->
     lastUpdated (ui w') = Some (Date_toLocaleString (VStr stamp))) /\
  (storage w !! timestampKeyOf selectedCategory = None ->
   lastUpdated (ui w')
     = Some (Date_toLocaleString (VNum (Date_now (clock_reads w))))) /\
  requests w' = requests w /\
  storage w' = storage w.
Proof.
  intros Hload Hne w'. subst w'.
  rewrite (fetchJokes_hit _ _ _ Hload (usable_nonempty_array _ Hne)).
  destruct (serve_from_cache_world (storageKeyOf selectedCategory) (VArr cached) w)
    as (when & reads & Heq & Hwhen).
  rewrite Heq. simpl.
  repeat split.
  - intros stamp Hstamp Hnonempty. rewrite Hwhen.
    unfold LocalStorage.getItem.
    change (storageKeyOf selectedCategory +:+ ":timestamp")
      with (timestampKeyOf selectedCategory).
    rewrite Hstamp. simpl.
    destruct stamp; [congruence | reflexivity].
  - intros Habsent. rewrite Hwhen.
    unfold LocalStorage.getItem.
    change (storageKeyOf selectedCategory +:+ ":timestamp")
      with (timestampKeyOf selectedCategory).
    rewrite Habsent. reflexivity.
Qed.

(** C10. The early return leaves [error] alone: an error message left by
    an earlier failed call is still set after a call served from
    cache, although [jokes], [fromCache], [lastUpdated] and [loading] are
    all written. *)
Theorem fetchJokes_cache_hit_keeps_error (selectedCategory : string) (w : World)
  (cached : list value) (msg : string) :
  LocalStorage.loadJokesFromStorage (storageKeyOf selectedCategory) (storage w)
    = VArr cached ->
  cached <> [] ->
  error (ui w) = Some msg ->
  let w' := snd (fetchJokes selectedCategory false w) in
  error (ui w') = Some msg /\
  jokes (ui w') = VArr cached /\
  fromCache (ui w') = true /\
  loading (ui w') = false /\
  (exists t, lastUpdated (ui w') = Some t).
Proof.
  intros Hload Hne Herror w'. subst w'.
  rewrite (fetchJokes_hit _ _ _ Hload (usable_nonempty_array _ Hne)).
  destruct (serve_from_cache_world (storageKeyOf selectedCategory) (VArr cached) w)
    as (when & reads & Heq & Hwhen).
  rewrite Heq. simpl. repeat split; eauto.
Qed.

End ControllerFacts.

Section CacheHitInstances.

Lemma fetchJokes_cache_hit_witness :
  let w' := snd (JokeList.fetchJokes (host := offlineHost) "Dark" false
                   (sampleWorld JokeList.initialState storedItems)) in
  JokeList.jokes (JokeList.ui w') = VArr [sampleShrunk] /\
  JokeList.fromCache (JokeList.ui w') = true /\
  JokeList.lastUpdated (JokeList.ui w') = Some "at 1699999999999" /\
  JokeList.requests w' = [].
Proof.
  destruct (fetchJokes_cache_hit (host := offlineHost) "Dark"
              (sampleWorld JokeList.initialState storedItems) [sampleShrunk])
    as (_ & Hjokes & Hfrom & _ & Hstamp & _ & Hreq & _).
  - vm_compute. reflexivity.
  - discriminate.
  - refine (conj Hjokes (conj Hfrom (conj _ Hreq))).
    apply (Hstamp "1699999999999"); [vm_compute; reflexivity | discriminate].
Defined.

Lemma fetchJokes_cache_hit_keeps_error_witness :
  JokeList.error
    (JokeList.ui (snd (JokeList.fetchJokes (host := offlineHost) "Dark" false
                         (sampleWorld failedState storedItems))))
  = Some "Failed to fetch".
Proof.
  apply (fetchJokes_cache_hit_keeps_error (host := offlineHost) "Dark"
           (sampleWorld failedState storedItems) [sampleShrunk] "Failed to fetch").
  - vm_compute. reflexivity.
  - discriminate.
  - reflexivity.
Defined.

End CacheHitInstances.

Section RequestFacts.
Context {host : Host}.
Import JokeList.

Lemma append_empty_r (s : string) : s +:+ "" = s.
Proof.
  induction s as [|c s IH]; [reflexivity|].
  change (String c (s +:+ "") = String c s). rewrite IH. reflexivity.
Qed.

(** A response that is not [ok] makes the [try] block throw right after
    the request. *)
Lemma fetch_and_store_not_ok (key selectedCategory : string) (w : World)
  (r : Response) :
  fetch (List.length (requests w)) (apiUrlOf selectedCategory) = Ok r ->
  ok r = false ->
  fetch_and_store key selectedCategory w
  = (Thrown (Error ("API responded with status: " +:+ Z_to_string (status r))),
     {| ui := ui w; storage := storage w;
        requests := requests w ++ [apiUrlOf selectedCategory];
        clock_reads := clock_reads w |}).
Proof.
  intros Hfetch Hok.
  unfold fetch_and_store, bind, await_fetch.
  rewrite Hfetch, Hok. reflexivity.
Qed.

(** An [ok] response whose body carries no error flag and normalises to
    the empty array makes it throw at the emptiness check. *)
Lemma fetch_and_store_empty (key selectedCategory : string) (w : World)
  (r : Response) (data flag : value) :
  fetch (List.length (requests w)) (apiUrlOf selectedCategory) = Ok r ->
  ok r = true ->
  json r = Ok data ->
  get data "error" = Ok flag ->
  truthy flag = false ->
  normalize data = Ok [] ->
  fetch_and_store key selectedCategory w
  = (Thrown (Error "No jokes found in the selected category"),
     {| ui := ui w; storage := storage w;
        requests := requests w ++ [apiUrlOf selectedCategory];
        clock_reads := clock_reads w |}).
Proof.
  intros Hfetch Hok Hjson Hflag Hfalsy Hnorm.
  unfold fetch_and_store, bind, await_fetch, lift.
  rewrite Hfetch, Hok. cbn [negb ret throw].
  rewrite Hjson, Hflag, Hfalsy. cbn [ret].
  rewrite Hnorm. reflexivity.
Qed.

(** An [ok] response whose records all process and shrink, with a store
    that takes both writes, lets the [try] block run to its end. *)
Lemma fetch_and_store_commits (key selectedCategory : string) (w : World)
  (r : Response) (data flag : value) (raw processed limited : list value) :
  fetch (List.length (requests w)) (apiUrlOf selectedCategory) = Ok r ->
  ok r = true ->
  json r = Ok data ->
  get data "error" = Ok flag ->
  truthy flag = false ->
  normalize data = Ok raw ->
  raw <> [] ->
  map_result processJoke raw = Ok processed ->
  map_result limitAttributes processed = Ok limited ->
  quota_accepts (storage w) key (JSON_stringify (VArr limited)) = true ->
  quota_accepts (<[key := JSON_stringify (VArr limited)]> (storage w))
    (key +:+ ":timestamp") (Z_to_string (Date_now (S (clock_reads w)))) = true ->
  fetch_and_store key selectedCategory w
  = (Ok tt,
     {| ui := {| jokes := VArr processed; loading := loading (ui w);
                 error := error (ui w); category := category (ui w);
                 fromCache := fromCache (ui w);
                 lastUpdated :=
                   Some (Date_toLocaleString (VNum (Date_now (clock_reads w)))) |};
        storage :=
          <[key +:+ ":timestamp" := Z_to_string (Date_now (S (clock_reads w)))]>
            (<[key := JSON_stringify (VArr limited)]> (storage w));
        requests := requests w ++ [apiUrlOf selectedCategory];
        clock_reads := S (S (clock_reads w)) |}).
Proof.
  intros Hfetch Hok Hjson Hflag Hfalsy Hnorm Hne Hproc Hlim Hq1 Hq2.
  unfold fetch_and_store, bind, await_fetch, lift.
  rewrite Hfetch, Hok. cbn [negb ret throw].
  rewrite Hjson, Hflag, Hfalsy. cbn [ret].
  rewrite Hnorm.
  destruct raw as [|x raw]; [congruence|].
  cbn [List.length Nat.eqb ret].
  rewrite Hproc.
  unfold setJokes, setLastUpdated, modify_ui, now, saveJokesToStorage,
    localStorage_setItem, with_storage.
  cbn [ui storage requests clock_reads jokes loading error category fromCache
       lastUpdated].
  rewrite Hlim.
  cbn [ui storage requests clock_reads jokes loading error category fromCache
       lastUpdated].
  unfold LocalStorage.saveJokesToStorage, LocalStorage.setItem.
  rewrite Hq1.
  cbn [ui storage requests clock_reads jokes loading error category fromCache
       lastUpdated].
  rewrite Hq2. reflexivity.
Qed.

End RequestFacts.

Section Refresh.
Context {host : Host}.
Import JokeList.

(** The requests of a guarded statement are those of its body when
    neither the handler nor the final step issues any. *)
Lemma try_requests (body : M unit) (handler : exn -> M unit) (final : M unit)
  (w : World) :
  (forall e, quiet (handler e)) -> quiet final ->
  requests (snd (try_catch_finally body handler final w))
    = requests (snd (body w)).
Proof.
  intros Hh Hf. unfold try_catch_finally.
  destruct (body w) as [[u|e] w1]; simpl.
  - apply Hf.
  - specialize (Hh e w1). destruct (handler e w1) as [[u|e'] w2]; simpl in *.
    + rewrite (Hf w2). exact Hh.
    + specialize (Hf w2). destruct (final w2) as [[u|e''] w3]; simpl in *; congruence.
Qed.

Lemma guarded_request_ends_loading (key selectedCategory : string) (w : World) :
  loading (ui (snd (try_catch_finally (fetch_and_store key selectedCategory)
                      on_error (setLoading false) w))) = false.
Proof.
  unfold try_catch_finally.
  destruct (fetch_and_store key selectedCategory w) as [[u|e] w1]; reflexivity.
Qed.

(** Populated records go through both maps. *)
Lemma populated_record_shrinks (raw : value) :
  populated raw = true ->
  exists full small,
    processJoke raw = Ok full /\ limitAttributes full = Ok small.
Proof.
  destruct raw as [| | | | | |ps]; simpl; try discriminate.
  destruct (summarisedText ps) as [| | | |s| |] eqn:Htext; try discriminate.
  intros Hne. apply negb_true_iff in Hne.
  assert (truthy (VStr s) = true) as Htruthy by (simpl; rewrite Hne; reflexivity).
  eexists. eexists. split; [reflexivity|].
  apply (limitAttributes_string _ s).
  unfold summarisedText in *. cbn [lookup_prop String.eqb Ascii.eqb Bool.eqb].
  simpl.
  destruct (strict_eq_str (lookup_prop "type" ps) "twopart");
    rewrite Htext; unfold or_else; rewrite Htruthy; reflexivity.
Qed.

Lemma populated_records_shrink (raw : list value) :
  forallb populated raw = true ->
  exists processed limited,
    map_result processJoke raw = Ok processed /\
    map_result limitAttributes processed = Ok limited.
Proof.
  induction raw as [|x raw IH]; simpl.
  - intros _. exists [], []. split; reflexivity.
  - intros H. apply andb_true_iff in H as [Hx Hraw].
    destruct (populated_record_shrinks x Hx) as (full & small & Hfull & Hsmall).
    destruct (IH Hraw) as (processed & limited & Hp & Hl).
    exists (full :: processed), (small :: limited).
    rewrite Hfull. cbn [rbind]. rewrite Hp. cbn [rbind].
    split; [reflexivity|].
    cbn [map_result]. rewrite Hsmall. cbn [rbind]. rewrite Hl. reflexivity.
Qed.

(** C2. For every category, a forced refresh issues exactly one request,
    for that category, whatever the store holds, and ends with [loading]
    cleared. When it succeeds (the response is ok, its body parses,
    carries no error flag and normalises to a non-empty array whose
    records process and shrink, and the store takes the two writes),
    [jokes] holds the full records, [fromCache] is false, [lastUpdated]
    is the time read from the clock, and the store holds the shrunk
    records under the category's key and the time under its timestamp
    key, in place of whatever was there; other keys are untouched. *)
Theorem fetchJokes_forced_refresh (selectedCategory : string) (w : World) :
  let w' := snd (fetchJokes selectedCategory true w) in
  requests w' = (requests w ++ [apiUrlOf selectedCategory])%list /\
  fst (fetchJokes selectedCategory true w) = Ok tt /\
  loading (ui w') = false /\
  forall (r : Response) (data flag : value) (raw processed limited : list value),
    fetch (List.length (requests w)) (apiUrlOf selectedCategory) = Ok r ->
    ok r = true ->
    json r = Ok data ->
    get data "error" = Ok flag ->
    truthy flag = false ->
    normalize data = Ok raw ->
    raw <> [] ->
    map_result processJoke raw = Ok processed ->
    map_result limitAttributes processed = Ok limited ->
    quota_accepts (storage w) (storageKeyOf selectedCategory)
      (JSON_stringify (VArr limited)) = true ->
    quota_accepts
      (<[storageKeyOf selectedCategory := JSON_stringify (VArr limited)]> (storage w))
      (timestampKeyOf selectedCategory)
      (Z_to_string (Date_now (S (clock_reads w)))) = true ->
    jokes (ui w') = VArr processed /\
    fromCache (ui w') = false /\
    error (ui w') = None /\
    lastUpdated (ui w')
      = Some (Date_toLocaleString (VNum (Date_now (clock_reads w)))) /\
    storage w' !! storageKeyOf selectedCategory
      = Some (JSON_stringify (VArr limited)) /\
    storage w' !! timestampKeyOf selectedCategory
      = Some (Z_to_string (Date_now (S (clock_reads w)))) /\
    (forall k, k <> storageKeyOf selectedCategory ->
               k <> timestampKeyOf selectedCategory ->
               storage w' !! k = storage w !! k).
Proof.
  intros w'. subst w'.
  rewrite (fetchJokes_miss selectedCategory true w (or_introl eq_refl)).
  split; [|split; [|split]].
  - rewrite try_requests.
    + rewrite fetch_and_store_requests. reflexivity.
    + apply quiet_on_error.
    + intros w0. reflexivity.
  - rewrite <- (fetchJokes_miss selectedCategory true w (or_introl eq_refl)).
    apply fetchJokes_returns.
  - apply guarded_request_ends_loading.
  - intros r data flag raw processed limited
      Hfetch Hok Hjson Hflag Hfalsy Hnorm Hne Hproc Hlim Hq1 Hq2.
    unfold try_catch_finally.
    rewrite (fetch_and_store_commits _ _ (loadingWorld w) r data flag raw processed
               limited Hfetch Hok Hjson Hflag Hfalsy Hnorm Hne Hproc Hlim Hq1 Hq2).
    cbn [fst snd setLoading modify_ui ui storage requests clock_reads jokes loading
         error category fromCache lastUpdated loadingWorld loadingState].
    change (storageKeyOf selectedCategory +:+ ":timestamp")
      with (timestampKeyOf selectedCategory).
    pose proof (storageKey_not_timestampKey selectedCategory) as Hkeys.
    repeat split.
    + rewrite lookup_insert_ne by congruence. apply lookup_insert_eq.
    + apply lookup_insert_eq.
    + intros k Hk1 Hk2. rewrite !lookup_insert_ne by congruence. reflexivity.
Qed.

End Refresh.

Section Failures.
Context {host : Host}.
Import JokeList.

(** C3. Whenever the request is made and the response is not [ok] (a
    500, say), the call catches an error whose message spells out the
    status code, stores that message in [error], empties [jokes] and
    clears [loading]; the store is not written. *)
Theorem fetchJokes_http_failure (selectedCategory : string) (forceRefresh : bool)
  (w : World) (r : Response) :
  goes_to_network selectedCategory forceRefresh w ->
  fetch (List.length (requests w)) (apiUrlOf selectedCategory) = Ok r ->
  ok r = false ->
  let w' := snd (fetchJokes selectedCategory forceRefresh w) in
  let msg := "API responded with status: " +:+ Z_to_string (status r) in
  fetch_and_store (storageKeyOf selectedCategory) selectedCategory (loadingWorld w)
    = (Thrown (Error msg),
       {| ui := loadingState (ui w); storage := storage w;
          requests := requests w ++ [apiUrlOf selectedCategory];
          clock_reads := clock_reads w |}) /\
  occurs_in (Z_to_string (status r)) msg /\
  error (ui w') = Some msg /\
  jokes (ui w') = VArr [] /\
  loading (ui w') = false /\
  storage w' = storage w.
Proof.
  intros Hnet Hfetch Hok w' msg. subst w'.
  pose proof (fetch_and_store_not_ok (storageKeyOf selectedCategory)
                selectedCategory (loadingWorld w) r Hfetch Hok) as Hbody.
  split; [exact Hbody|].
  split.
  { exists "API responded with status: ", "". unfold msg.
    rewrite append_empty_r. reflexivity. }
  rewrite (fetchJokes_miss _ _ _ Hnet).
  rewrite (failed_request_world _ _ _ _ _ Hbody).
  repeat split.
Qed.

(** C4. Whenever the request is made and an [ok] response carries a body
    without error flag that normalises to the empty array (as
    [{jokes: []}] does), the call catches the error "No jokes found in
    the selected category" (the message of the claim, up to the capital
    of its first letter), stores it in [error], and leaves [jokes] empty
    and [loading] cleared. *)
Theorem fetchJokes_empty_result (selectedCategory : string) (forceRefresh : bool)
  (w : World) (r : Response) (data flag : value) :
  goes_to_network selectedCategory forceRefresh w ->
  fetch (List.length (requests w)) (apiUrlOf selectedCategory) = Ok r ->
  ok r = true ->
  json r = Ok data ->
  get data "error" = Ok flag ->
  truthy flag = false ->
  normalize data = Ok [] ->
  let w' := snd (fetchJokes selectedCategory forceRefresh w) in
  exists msg,
    fetch_and_store (storageKeyOf selectedCategory) selectedCategory (loadingWorld w)
      = (Thrown (Error msg),
         {| ui := loadingState (ui w); storage := storage w;
            requests := requests w ++ [apiUrlOf selectedCategory];
            clock_reads := clock_reads w |}) /\
    msg = "No jokes found in the selected category" /\
    lower msg = "no jokes found in the selected category" /\
    error (ui w') = Some msg /\
    jokes (ui w') = VArr [] /\
    loading (ui w') = false /\
    storage w' = storage w.
Proof.
  intros Hnet Hfetch Hok Hjson Hflag Hfalsy Hnorm w'. subst w'.
  pose proof (fetch_and_store_empty (storageKeyOf selectedCategory)
                selectedCategory (loadingWorld w) r data flag
                Hfetch Hok Hjson Hflag Hfalsy Hnorm) as Hbody.
  exists "No jokes found in the selected category".
  split; [exact Hbody|].
  split; [reflexivity|].
  split; [reflexivity|].
  rewrite (fetchJokes_miss _ _ _ Hnet).
  rewrite (failed_request_world _ _ _ _ _ Hbody).
  repeat split.
Qed.

End Failures.

Section RequestInstances.

Lemma fetchJokes_http_failure_witness :
  let w' := snd (JokeList.fetchJokes (host := failingHost) "Programming" false
                   (sampleWorld JokeList.initialState [])) in
  JokeList.error (JokeList.ui w') = Some "API responded with status: 500" /\
  JokeList.jokes (JokeList.ui w') = VArr [] /\
  JokeList.loading (JokeList.ui w') = false.
Proof.
  destruct (fetchJokes_http_failure (host := failingHost) "Programming" false
              (sampleWorld JokeList.initialState [])
              {| ok := false; status := 500;
                 json := Thrown (SyntaxError "Unexpected end of JSON input") |})
    as (_ & _ & Herror & Hjokes & Hloading & _).
  - right. vm_compute. reflexivity.
  - reflexivity.
  - reflexivity.
  - exact (conj Herror (conj Hjokes Hloading)).
Defined.

Lemma fetchJokes_empty_result_witness :
  let w' := snd (JokeList.fetchJokes (host := emptyHost) "Spooky" true
                   (sampleWorld JokeList.initialState [])) in
  JokeList.error (JokeList.ui w') = Some "No jokes found in the selected category" /\
  JokeList.jokes (JokeList.ui w') = VArr [] /\
  JokeList.loading (JokeList.ui w') = false.
Proof.
  destruct (fetchJokes_empty_result (host := emptyHost) "Spooky" true
              (sampleWorld JokeList.initialState [])
              {| ok := true; status := 200;
                 json := Ok (VObj [("jokes", VArr [])]) |}
              (VObj [("jokes", VArr [])]) VUndefined)
    as (msg & _ & Hmsg & _ & Herror & Hjokes & Hloading & _).
  - left. reflexivity.
  - reflexivity.
  - reflexivity.
  - reflexivity.
  - reflexivity.
  - reflexivity.
  - reflexivity.
  - subst msg. exact (conj Herror (conj Hjokes Hloading)).
Defined.

Lemma fetchJokes_forced_refresh_witness :
  let w' := snd (JokeList.fetchJokes (host := answeringHost) "Programming" true
                   (sampleWorld JokeList.initialState staleItems)) in
  JokeList.requests w'
    = ["https://v2.jokeapi.dev/joke/Programming?type=single,twopart&amount=50"] /\
  JokeList.jokes (JokeList.ui w')
    = VArr [VObj [("id", VNum 1); ("joke", VStr "why did..."); ("setup", VNull);
                  ("delivery", VNull); ("category", VStr "Programming");
                  ("type", VStr "single");
                  ("flags", VObj [("nsfw", VBool false)])]] /\
  JokeList.fromCache (JokeList.ui w') = false /\
  JokeList.storage w' !! "jokes:Programming"
    = Some (sample_stringify
              (VArr [VObj [("id", VNum 1); ("summary", VStr "why did......");
                           ("category", VStr "Programming");
                           ("type", VStr "single")]])) /\
  JokeList.storage w' !! "jokes:Programming:timestamp" = Some "1700000000001".
Proof.
  destruct (fetchJokes_forced_refresh (host := answeringHost) "Programming"
              (sampleWorld JokeList.initialState staleItems))
    as (Hrequests & _ & _ & Hcommit).
  destruct (Hcommit
              {| ok := true; status := 200;
                 json := Ok (VObj [("jokes", VArr [sampleRaw])]) |}
              (VObj [("jokes", VArr [sampleRaw])]) VUndefined [sampleRaw]
              [VObj [("id", VNum 1); ("joke", VStr "why did..."); ("setup", VNull);
                     ("delivery", VNull); ("category", VStr "Programming");
                     ("type", VStr "single");
                     ("flags", VObj [("nsfw", VBool false)])]]
              [VObj [("id", VNum 1); ("summary", VStr "why did......");
                     ("category", VStr "Programming"); ("type", VStr "single")]])
    as (Hjokes & Hfrom & _ & _ & Hrecords & Hstamp & _).
  - reflexivity.
  - reflexivity.
  - reflexivity.
  - reflexivity.
  - reflexivity.
  - reflexivity.
  - discriminate.
  - reflexivity.
  - reflexivity.
  - reflexivity.
  - reflexivity.
  - exact (conj Hrequests (conj Hjokes (conj Hfrom (conj Hrecords Hstamp)))).
Defined.

End RequestInstances.

(* ===================================================================== *)
(** ** Further properties: the cache store *)
(* ===================================================================== *)

Section StoreFacts.
Context {host : Host}.

Lemma load_after_insert (key text : string) (v : value) (items : gmap string string) :
  text <> "" -> JSON_parse text = Ok v ->
  LocalStorage.loadJokesFromStorage key (<[key := text]> items) = v.
Proof.
  intros Hne Hparse.
  unfold LocalStorage.loadJokesFromStorage, LocalStorage.getItem.
  rewrite lookup_insert_eq.
  assert (truthy (VStr text) = true) as ->.
  { simpl. destruct text; [congruence | reflexivity]. }
  simpl. rewrite Hparse. reflexivity.
Qed.

Lemma load_other_key (key key' : string) (items items' : gmap string string) :
  items' !! key' = items !! key' ->
  LocalStorage.loadJokesFromStorage key' items'
    = LocalStorage.loadJokesFromStorage key' items.
Proof.
  intros H. unfold LocalStorage.loadJokesFromStorage, LocalStorage.getItem.
  rewrite H. reflexivity.
Qed.

(** Save, then load: when the store takes the write and the parser
    reads back the printed data, loading the key gives the data back, and
    every other key loads as before. *)
Theorem save_then_load (key : string) (data : value) (items : gmap string string) :
  quota_accepts items key (JSON_stringify data) = true ->
  reads_back data ->
  LocalStorage.loadJokesFromStorage key
    (LocalStorage.saveJokesToStorage key data items) = data /\
  (forall key', key' <> key ->
     LocalStorage.loadJokesFromStorage key'
       (LocalStorage.saveJokesToStorage key data items)
     = LocalStorage.loadJokesFromStorage key' items).
Proof.
  intros Hquota [Hne Hparse].
  unfold LocalStorage.saveJokesToStorage, LocalStorage.setItem.
  rewrite Hquota. split.
  - apply load_after_insert; assumption.
  - intros key' Hother. apply (load_other_key key).
    apply lookup_insert_ne. congruence.
Qed.

(** Saving is all or nothing and touches one key: keys other than
    [key] are never changed; when the store takes the write the key holds
    the printed data, and when it refuses the write nothing is thrown and
    the store is exactly what it was. *)
Theorem save_all_or_nothing (key : string) (data : value)
  (items : gmap string string) :
  (forall key', key' <> key ->
     LocalStorage.saveJokesToStorage key data items !! key' = items !! key') /\
  (quota_accepts items key (JSON_stringify data) = true ->
   LocalStorage.saveJokesToStorage key data items !! key
     = Some (JSON_stringify data)) /\
  (quota_accepts items key (JSON_stringify data) = false ->
   LocalStorage.saveJokesToStorage key data items = items).
Proof.
  unfold LocalStorage.saveJokesToStorage, LocalStorage.setItem.
  destruct (quota_accepts items key (JSON_stringify data)).
  - split; [|split].
    + intros key' Hother. apply lookup_insert_ne. congruence.
    + intros _. apply lookup_insert_eq.
    + discriminate.
  - split; [|split].
    + reflexivity.
    + discriminate.
    + reflexivity.
Qed.

(** Clearing undoes saving: after a clear the key loads [null], whatever
    was saved under it before, and a cleared key that was never set
    leaves the store unchanged. *)
Theorem clear_after_save (key : string) (data : value) (items : gmap string string) :
  LocalStorage.loadJokesFromStorage key
    (LocalStorage.clearJokesFromStorage key
       (LocalStorage.saveJokesToStorage key data items)) = VNull /\
  (items !! key = None ->
   LocalStorage.clearJokesFromStorage key
     (LocalStorage.saveJokesToStorage key data items) = items) /\
  (items !! key = None -> LocalStorage.clearJokesFromStorage key items = items).
Proof.
  unfold LocalStorage.clearJokesFromStorage, LocalStorage.removeItem.
  split; [|split].
  - unfold LocalStorage.loadJokesFromStorage, LocalStorage.getItem.
    rewrite lookup_delete_eq. reflexivity.
  - intros Habsent.
    unfold LocalStorage.saveJokesToStorage, LocalStorage.setItem.
    destruct (quota_accepts items key (JSON_stringify data)).
    + rewrite delete_insert_eq. apply delete_id. exact Habsent.
    + apply delete_id. exact Habsent.
  - intros Habsent. apply delete_id. exact Habsent.
Qed.

End StoreFacts.

Lemma save_then_load_witness :
  LocalStorage.loadJokesFromStorage (host := offlineHost) "jokes:Dark"
    (LocalStorage.saveJokesToStorage (host := offlineHost) "jokes:Dark"
       (VArr [sampleShrunk]) ∅)
  = VArr [sampleShrunk].
Proof.
  apply (save_then_load (host := offlineHost) "jokes:Dark" (VArr [sampleShrunk]) ∅).
  - reflexivity.
  - split; [discriminate | vm_compute; reflexivity].
Defined.

(* ===================================================================== *)
(** ** Further properties: what every call of fetchJokes keeps *)
(* ===================================================================== *)

Section Frames.
Context {host : Host}.
Import JokeList.

Lemma preserves_ret {A B} (f : World -> B) (a : A) : preserves f (ret a).
Proof. intros w. reflexivity. Qed.

Lemma preserves_throw {A B} (f : World -> B) (e : exn) : preserves f (@throw A e).
Proof. intros w. reflexivity. Qed.

Lemma preserves_lift {A B} (f : World -> B) (r : result A) : preserves f (lift r).
Proof. intros w. reflexivity. Qed.

Lemma preserves_bind {A A' B} (f : World -> B) (c : M A) (k : A -> M A') :
  preserves f c -> (forall a, preserves f (k a)) -> preserves f (bind c k).
Proof.
  intros Hc Hk w. unfold bind.
  specialize (Hc w). destruct (c w) as [[a|e] w1]; simpl in *.
  - rewrite (Hk a w1). exact Hc.
  - exact Hc.
Qed.

Lemma preserves_if {A B} (f : World -> B) (b : bool) (c1 c2 : M A) :
  preserves f c1 -> preserves f c2 -> preserves f (if b then c1 else c2).
Proof. destruct b; auto. Qed.

Lemma preserves_try {B} (f : World -> B) (body : M unit) (handler : exn -> M unit)
  (final : M unit) :
  preserves f body -> (forall e, preserves f (handler e)) -> preserves f final ->
  preserves f (try_catch_finally body handler final).
Proof.
  intros Hb Hh Hf w. unfold try_catch_finally.
  specialize (Hb w). destruct (body w) as [[u|e] w1]; simpl in *.
  - rewrite (Hf w1). exact Hb.
  - specialize (Hh e w1). destruct (handler e w1) as [[u|e'] w2]; simpl in *.
    + rewrite (Hf w2). congruence.
    + specialize (Hf w2). destruct (final w2) as [[u|e''] w3]; simpl in *; congruence.
Qed.

(** Splits a statement along its binds and conditionals, leaving the
    primitive statements to [leaf]. *)
Ltac frame_with leaf :=
  repeat first
    [ apply preserves_ret | apply preserves_throw | apply preserves_lift
    | apply preserves_bind; [|intros ?]
    | apply preserves_if
    | solve [leaf] ].

Ltac by_computation :=
  let w := fresh "w" in
  intros w; unfold localStorage_setItem;
  try match goal with
      | |- context [LocalStorage.setItem ?a ?b ?c] =>
          destruct (LocalStorage.setItem a b c)
      end;
  reflexivity.

Ltac other_key :=
  let w := fresh "w" in
  intros w;
  unfold localStorage_setItem, saveJokesToStorage, with_storage,
    LocalStorage.saveJokesToStorage, LocalStorage.setItem;
  repeat match goal with
         | |- context [quota_accepts ?a ?b ?c] => destruct (quota_accepts a b c)
         end;
  simpl; rewrite ?lookup_insert_ne by congruence; reflexivity.

(** No statement of the call writes the [category] cell. *)
Lemma fetchJokes_keeps_category (selectedCategory : string) (forceRefresh : bool) :
  preserves (fun w => category (ui w)) (fetchJokes selectedCategory forceRefresh).
Proof.
  unfold fetchJokes, serve_from_cache.
  frame_with by_computation.
  apply preserves_try; unfold fetch_and_store, on_error;
    [| intros ? |]; frame_with by_computation.
Qed.


Lemma fetch_and_store_keeps_fromCache (key selectedCategory : string) :
  preserves (fun w => fromCache (ui w)) (fetch_and_store key selectedCategory).
Proof. unfold fetch_and_store. frame_with by_computation. Qed.

(** The call writes no key of the store but the two of its category. *)
Lemma fetchJokes_other_keys (selectedCategory : string) (forceRefresh : bool)
  (k : string) :
  k <> storageKeyOf selectedCategory ->
  k <> timestampKeyOf selectedCategory ->
  preserves (fun w => storage w !! k) (fetchJokes selectedCategory forceRefresh).
Proof.
  intros Hk1 Hk2. unfold timestampKeyOf in Hk2.
  unfold fetchJokes, serve_from_cache.
  frame_with by_computation.
  apply preserves_try; unfold fetch_and_store, on_error;
    [| intros ? |]; frame_with ltac:(first [by_computation | other_key]).
Qed.

(** Either the cache answers or the request is made. *)
Lemma hit_or_miss (selectedCategory : string) (forceRefresh : bool) (w : World) :
  (forceRefresh = false /\
   usable (LocalStorage.loadJokesFromStorage (storageKeyOf selectedCategory)
             (storage w)) = true) \/
  goes_to_network selectedCategory forceRefresh w.
Proof.
  unfold goes_to_network.
  destruct forceRefresh; [right; left; reflexivity|].
  destruct (usable _); [left; split; reflexivity | right; right; reflexivity].
Qed.

Lemma fetchJokes_miss_requests (selectedCategory : string) (forceRefresh : bool)
  (w : World) :
  goes_to_network selectedCategory forceRefresh w ->
  requests (snd (fetchJokes selectedCategory forceRefresh w))
    = (requests w ++ [apiUrlOf selectedCategory])%list.
Proof.
  intros Hnet. rewrite (fetchJokes_miss _ _ _ Hnet).
  rewrite try_requests.
  - rewrite fetch_and_store_requests. reflexivity.
  - apply quiet_on_error.
  - intros w0. reflexivity.
Qed.

End Frames.

Section Outcomes.
Context {host : Host}.
Import JokeList.

Lemma map_result_length {A B} (f : A -> result B) (l : list A) (l' : list B) :
  map_result f l = Ok l' -> List.length l' = List.length l.
Proof.
  revert l'; induction l as [|x l IH]; simpl; intros l' H.
  - injection H as <-. reflexivity.
  - destruct (f x) as [y|e]; simpl in H; [|discriminate].
    destruct (map_result f l) as [ys|e]; simpl in H; [|discriminate].
    injection H as <-. simpl. rewrite (IH ys eq_refl). reflexivity.
Qed.

Lemma map_result_nonempty {A B} (f : A -> result B) (l : list A) (l' : list B) :
  map_result f l = Ok l' -> l <> [] -> l' <> [].
Proof.
  intros H Hne Hnil. apply map_result_length in H. subst l'.
  destruct l; [congruence | discriminate].
Qed.

(** When the [try] block runs to its end, [jokes] holds a non-empty
    array. *)
Lemma fetch_and_store_done (key selectedCategory : string) (w w1 : World) :
  fetch_and_store key selectedCategory w = (Ok tt, w1) ->
  exists processed, processed <> [] /\ jokes (ui w1) = VArr processed.
Proof.
  unfold fetch_and_store, bind, await_fetch, lift, throw, ret.
  destruct (fetch _ _) as [r|e]; [|discriminate].
  destruct (ok r); cbn [negb]; [|discriminate].
  destruct (json r) as [data|e]; [|discriminate].
  destruct (get data "error") as [flag|e]; [|discriminate].
  destruct (truthy flag).
  { destruct (get data "message"); discriminate. }
  destruct (normalize data) as [raw|e]; [|discriminate].
  destruct raw as [|x raw]; [discriminate|].
  cbn [List.length Nat.eqb].
  destruct (map_result processJoke (x :: raw)) as [processed|e] eqn:Hp; [|discriminate].
  unfold setJokes, setLastUpdated, modify_ui, now, saveJokesToStorage,
    localStorage_setItem, with_storage.
  cbn [ui storage requests clock_reads jokes loading error category fromCache
       lastUpdated].
  destruct (map_result limitAttributes processed) as [limited|e]; [|discriminate].
  cbn [ui storage requests clock_reads jokes loading error category fromCache
       lastUpdated].
  destruct (LocalStorage.setItem _ _ _); [|discriminate].
  intros H. injection H as <-.
  exists processed. split; [|reflexivity].
  apply (map_result_nonempty _ _ _ Hp). discriminate.
Qed.

(** What a call that goes to the network leaves behind when its [try]
    block throws. *)
Lemma fetchJokes_failed (selectedCategory : string) (forceRefresh : bool)
  (w w1 : World) (e : exn) :
  goes_to_network selectedCategory forceRefresh w ->
  fetch_and_store (storageKeyOf selectedCategory) selectedCategory (loadingWorld w)
    = (Thrown e, w1) ->
  fetchJokes selectedCategory forceRefresh w
  = (Ok tt,
     {| ui := {| jokes := VArr []; loading := false; error := Some (message e);
                 category := category (ui w1); fromCache := fromCache (ui w1);
                 lastUpdated := lastUpdated (ui w1) |};
        storage := storage w1; requests := requests w1;
        clock_reads := clock_reads w1 |}).
Proof.
  intros Hnet Hbody. rewrite (fetchJokes_miss _ _ _ Hnet).
  apply failed_request_world. exact Hbody.
Qed.

(** Every call settles: it never throws, it ends with [loading] false,
    it leaves [category] alone, and it issues exactly one request, for
    its category, when the cache does not answer and none when it does
    (the store is then not written either). *)
Theorem fetchJokes_settles (selectedCategory : string) (forceRefresh : bool)
  (w : World) :
  let w' := snd (fetchJokes selectedCategory forceRefresh w) in
  fst (fetchJokes selectedCategory forceRefresh w) = Ok tt /\
  loading (ui w') = false /\
  category (ui w') = category (ui w) /\
  (goes_to_network selectedCategory forceRefresh w ->
   requests w' = (requests w ++ [apiUrlOf selectedCategory])%list) /\
  (~ goes_to_network selectedCategory forceRefresh w ->
   requests w' = requests w /\ storage w' = storage w).
Proof.
  intros w'. subst w'.
  split; [apply fetchJokes_returns|].
  split.
  { destruct (hit_or_miss selectedCategory forceRefresh w) as [[-> Hhit]|Hnet].
    - rewrite (fetchJokes_hit _ _ _ eq_refl Hhit).
      destruct (serve_from_cache_world (storageKeyOf selectedCategory)
                  (LocalStorage.loadJokesFromStorage
                     (storageKeyOf selectedCategory) (storage w)) w)
        as (when & reads & Heq & _).
      rewrite Heq. reflexivity.
    - rewrite (fetchJokes_miss _ _ _ Hnet). apply guarded_request_ends_loading. }
  split; [apply (fetchJokes_keeps_category selectedCategory forceRefresh w)|].
  split; [apply fetchJokes_miss_requests|].
  intros Hhit.
  destruct (hit_or_miss selectedCategory forceRefresh w) as [[-> Husable]|Hnet];
    [|contradiction].
  rewrite (fetchJokes_hit _ _ _ eq_refl Husable).
  destruct (serve_from_cache_world (storageKeyOf selectedCategory)
              (LocalStorage.loadJokesFromStorage
                 (storageKeyOf selectedCategory) (storage w)) w)
    as (when & reads & Heq & _).
  rewrite Heq. split; reflexivity.
Qed.

(** A call for one of the six categories never changes what the store
    holds for another of them: both keys of the other category, and what
    loads from it, are as before. *)
Theorem fetchJokes_other_categories (selectedCategory other : string)
  (forceRefresh : bool) (w : World) :
  In selectedCategory CATEGORIES ->
  In other CATEGORIES ->
  other <> selectedCategory ->
  let w' := snd (fetchJokes selectedCategory forceRefresh w) in
  storage w' !! storageKeyOf other = storage w !! storageKeyOf other /\
  storage w' !! timestampKeyOf other = storage w !! timestampKeyOf other /\
  LocalStorage.loadJokesFromStorage (storageKeyOf other) (storage w')
    = LocalStorage.loadJokesFromStorage (storageKeyOf other) (storage w).
Proof.
  intros Hin Hin' Hneq w'. subst w'.
  assert (storage (snd (fetchJokes selectedCategory forceRefresh w))
            !! storageKeyOf other = storage w !! storageKeyOf other) as Hrecords.
  { apply (fetchJokes_other_keys selectedCategory forceRefresh (storageKeyOf other));
      simpl in Hin, Hin';
      repeat (destruct Hin as [<-|Hin]; [|]); try contradiction;
      repeat (destruct Hin' as [<-|Hin']; [|]); try contradiction;
      try congruence; intros H; vm_compute in H; discriminate H. }
  split; [exact Hrecords|].
  split.
  - apply (fetchJokes_other_keys selectedCategory forceRefresh (timestampKeyOf other));
      simpl in Hin, Hin';
      repeat (destruct Hin as [<-|Hin]; [|]); try contradiction;
      repeat (destruct Hin' as [<-|Hin']; [|]); try contradiction;
      try congruence; intros H; vm_compute in H; discriminate H.
  - apply (load_other_key (storageKeyOf selectedCategory)). exact Hrecords.
Qed.


End Outcomes.

Section OutcomeInstances.

Lemma fetchJokes_other_categories_witness :
  JokeList.storage
    (snd (JokeList.fetchJokes (host := answeringHost) "Programming" true
            (sampleWorld JokeList.initialState storedItems)))
    !! JokeList.storageKeyOf "Dark"
  = JokeList.storage (sampleWorld JokeList.initialState storedItems)
      !! JokeList.storageKeyOf "Dark".
Proof.
  apply (fetchJokes_other_categories (host := answeringHost) "Programming" "Dark"
           true (sampleWorld JokeList.initialState storedItems)).
  - simpl. auto.
  - simpl. auto.
  - discriminate.
Defined.


End OutcomeInstances.

(* ===================================================================== *)
(** ** Further properties: the ways a request fails *)
(* ===================================================================== *)

Section FailurePaths.
Context {host : Host}.
Import JokeList.

Lemma fetch_and_store_flagged (key selectedCategory : string) (w : World)
  (r : Response) (data flag msg : value) :
  fetch (List.length (requests w)) (apiUrlOf selectedCategory) = Ok r ->
  ok r = true ->
  json r = Ok data ->
  get data "error" = Ok flag ->
  truthy flag = true ->
  get data "message" = Ok msg ->
  fetch_and_store key selectedCategory w
  = (Thrown (Error (ToString (or_else msg (VStr "Unknown API error")))),
     {| ui := ui w; storage := storage w;
        requests := requests w ++ [apiUrlOf selectedCategory];
        clock_reads := clock_reads w |}).
Proof.
  intros Hfetch Hok Hjson Hflag Htruthy Hmsg.
  unfold fetch_and_store, bind, await_fetch, lift.
  rewrite Hfetch, Hok. cbn [negb ret throw].
  rewrite Hjson, Hflag, Htruthy, Hmsg. reflexivity.
Qed.

Lemma fetch_and_store_rejected (key selectedCategory : string) (w : World) (e : exn) :
  fetch (List.length (requests w)) (apiUrlOf selectedCategory) = Thrown e \/
  (exists r, fetch (List.length (requests w)) (apiUrlOf selectedCategory) = Ok r /\
             ok r = true /\ json r = Thrown e) ->
  fetch_and_store key selectedCategory w
  = (Thrown e,
     {| ui := ui w; storage := storage w;
        requests := requests w ++ [apiUrlOf selectedCategory];
        clock_reads := clock_reads w |}).
Proof.
  unfold fetch_and_store, bind, await_fetch, lift.
  intros [Hfetch | (r & Hfetch & Hok & Hjson)]; rewrite Hfetch; [reflexivity|].
  rewrite Hok. cbn [negb ret]. rewrite Hjson. reflexivity.
Qed.

Lemma network_call_not_from_cache (selectedCategory : string) (forceRefresh : bool)
  (w : World) :
  goes_to_network selectedCategory forceRefresh w ->
  fromCache (ui (snd (fetchJokes selectedCategory forceRefresh w))) = false.
Proof.
  intros Hnet. rewrite (fetchJokes_miss _ _ _ Hnet).
  rewrite (preserves_try (fun w => fromCache (ui w))).
  - reflexivity.
  - apply fetch_and_store_keeps_fromCache.
  - intros e w0. reflexivity.
  - intros w0. reflexivity.
Qed.

(** A body that carries a truthy [error] flag is never shown, even if
    it also carries jokes: the call stores the body's [message] as text
    ("Unknown API error" when the message is missing or falsy), empties
    [jokes] and leaves the store alone. *)
Theorem fetchJokes_api_error (selectedCategory : string) (forceRefresh : bool)
  (w : World) (r : Response) (data flag msg : value) :
  goes_to_network selectedCategory forceRefresh w ->
  fetch (List.length (requests w)) (apiUrlOf selectedCategory) = Ok r ->
  ok r = true ->
  json r = Ok data ->
  get data "error" = Ok flag ->
  truthy flag = true ->
  get data "message" = Ok msg ->
  let w' := snd (fetchJokes selectedCategory forceRefresh w) in
  error (ui w') = Some (ToString (or_else msg (VStr "Unknown API error"))) /\
  (forall text, msg = VStr text -> text <> "" -> error (ui w') = Some text) /\
  (truthy msg = false -> error (ui w') = Some "Unknown API error") /\
  jokes (ui w') = VArr [] /\
  fromCache (ui w') = false /\
  storage w' = storage w.
Proof.
  intros Hnet Hfetch Hok Hjson Hflag Htruthy Hmsg w'. subst w'.
  rewrite (fetchJokes_failed _ _ _ _ _ Hnet
             (fetch_and_store_flagged _ _ (loadingWorld w) r data flag msg
                Hfetch Hok Hjson Hflag Htruthy Hmsg)).
  cbn [snd ui error jokes fromCache storage message loadingWorld loadingState].
  repeat split.
  - intros text -> Hne. unfold or_else. simpl.
    destruct text; [congruence | reflexivity].
  - intros Hfalsy. unfold or_else. rewrite Hfalsy. reflexivity.
Qed.

(** When the request itself is rejected, or the body of an ok response
    does not parse, the exception's message becomes the error, [jokes] is
    emptied, and neither the store nor [lastUpdated] is touched; the
    request still counts as made. *)
Theorem fetchJokes_rejection (selectedCategory : string) (forceRefresh : bool)
  (w : World) (e : exn) :
  goes_to_network selectedCategory forceRefresh w ->
  fetch (List.length (requests w)) (apiUrlOf selectedCategory) = Thrown e \/
  (exists r, fetch (List.length (requests w)) (apiUrlOf selectedCategory) = Ok r /\
             ok r = true /\ json r = Thrown e) ->
  let w' := snd (fetchJokes selectedCategory forceRefresh w) in
  error (ui w') = Some (message e) /\
  jokes (ui w') = VArr [] /\
  lastUpdated (ui w') = lastUpdated (ui w) /\
  storage w' = storage w /\
  requests w' = (requests w ++ [apiUrlOf selectedCategory])%list.
Proof.
  intros Hnet Hrejected w'. subst w'.
  rewrite (fetchJokes_failed _ _ _ _ _ Hnet
             (fetch_and_store_rejected _ _ (loadingWorld w) e Hrejected)).
  repeat split.
Qed.

(** A cache entry that is missing, empty, unparsable, or an empty array
    is not used: without any forced refresh the call goes to the
    network. *)
Theorem fetchJokes_unusable_cache (selectedCategory : string) (w : World) :
  storage w !! storageKeyOf selectedCategory = None \/
  storage w !! storageKeyOf selectedCategory = Some "" \/
  (exists text e, storage w !! storageKeyOf selectedCategory = Some text /\
                  JSON_parse text = Thrown e) \/
  (exists text, storage w !! storageKeyOf selectedCategory = Some text /\
                JSON_parse text = Ok (VArr [])) ->
  let w' := snd (fetchJokes selectedCategory false w) in
  usable (LocalStorage.loadJokesFromStorage (storageKeyOf selectedCategory)
            (storage w)) = false /\
  requests w' = (requests w ++ [apiUrlOf selectedCategory])%list /\
  fromCache (ui w') = false.
Proof.
  intros Hcases w'. subst w'.
  assert (usable (LocalStorage.loadJokesFromStorage
                    (storageKeyOf selectedCategory) (storage w)) = false) as Hmiss.
  { unfold LocalStorage.loadJokesFromStorage, LocalStorage.getItem.
    destruct Hcases as [H | [H | [(text & e & H & Hparse) | (text & H & Hparse)]]];
      rewrite H; try reflexivity.
    - simpl. destruct (negb (String.eqb text "")); [|reflexivity].
      rewrite Hparse. reflexivity.
    - simpl. destruct (negb (String.eqb text "")); [|reflexivity].
      rewrite Hparse. reflexivity. }
  split; [exact Hmiss|].
  split; [apply fetchJokes_miss_requests; right; exact Hmiss|].
  apply network_call_not_from_cache. right. exact Hmiss.
Qed.

End FailurePaths.

Section FailureInstances.

Lemma fetchJokes_api_error_witness :
  JokeList.error
    (JokeList.ui (snd (JokeList.fetchJokes (host := refusingHost) "Christmas" true
                         (sampleWorld JokeList.initialState []))))
  = Some "No matching joke found".
Proof.
  destruct (fetchJokes_api_error (host := refusingHost) "Christmas" true
              (sampleWorld JokeList.initialState [])
              {| ok := true; status := 200;
                 json := Ok (VObj [("error", VBool true);
                                   ("message", VStr "No matching joke found")]) |}
              (VObj [("error", VBool true); ("message", VStr "No matching joke found")])
              (VBool true) (VStr "No matching joke found"))
    as (Herror & _).
  - left. reflexivity.
  - reflexivity.
  - reflexivity.
  - reflexivity.
  - reflexivity.
  - reflexivity.
  - reflexivity.
  - exact Herror.
Defined.

Lemma fetchJokes_rejection_witness :
  JokeList.error
    (JokeList.ui (snd (JokeList.fetchJokes (host := offlineHost) "Pun" false
                         (sampleWorld JokeList.initialState []))))
  = Some "Failed to fetch".
Proof.
  apply (fetchJokes_rejection (host := offlineHost) "Pun" false
           (sampleWorld JokeList.initialState []) (TypeError "Failed to fetch")).
  - right. vm_compute. reflexivity.
  - left. reflexivity.
Defined.

Lemma fetchJokes_unusable_cache_witness :
  JokeList.requests
    (snd (JokeList.fetchJokes (host := answeringHost) "Programming" false
            (sampleWorld JokeList.initialState staleItems)))
  = ["https://v2.jokeapi.dev/joke/Programming?type=single,twopart&amount=50"].
Proof.
  apply (fetchJokes_unusable_cache (host := answeringHost) "Programming"
           (sampleWorld JokeList.initialState staleItems)).
  right. right. left.
  exists "stale", (SyntaxError "Unexpected token").
  split; vm_compute; reflexivity.
Defined.

End FailureInstances.

(* ===================================================================== *)
(** ** Further properties: after the records are fetched *)
(* ===================================================================== *)

Section AfterProcessing.
Context {host : Host}.
Import JokeList.

(** The world when the fetched records have been put on screen. *)
Lemma fetch_and_store_processed (key selectedCategory : string) (w : World)
  (r : Response) (data flag : value) (raw processed : list value) :
  fetch (List.length (requests w)) (apiUrlOf selectedCategory) = Ok r ->
  ok r = true ->
  json r = Ok data ->
  get data "error" = Ok flag ->
  truthy flag = false ->
  normalize data = Ok raw ->
  raw <> [] ->
  map_result processJoke raw = Ok processed ->
  fetch_and_store key selectedCategory w
  = bind (lift (map_result limitAttributes processed))
      (fun limitedJokes =>
         bind (saveJokesToStorage key (VArr limitedJokes))
           (fun _ =>
              bind now
                (fun t' =>
                   localStorage_setItem (key +:+ ":timestamp") (Z_to_string t'))))
      {| ui := {| jokes := VArr processed; loading := loading (ui w);
                  error := error (ui w); category := category (ui w);
                  fromCache := fromCache (ui w);
                  lastUpdated :=
                    Some (Date_toLocaleString (VNum (Date_now (clock_reads w)))) |};
         storage := storage w;
         requests := requests w ++ [apiUrlOf selectedCategory];
         clock_reads := S (clock_reads w) |}.
Proof.
  intros Hfetch Hok Hjson Hflag Hfalsy Hnorm Hne Hproc.
  unfold fetch_and_store, bind, await_fetch, lift.
  rewrite Hfetch, Hok. cbn [negb ret throw].
  rewrite Hjson, Hflag, Hfalsy. cbn [ret].
  rewrite Hnorm.
  destruct raw as [|x raw]; [congruence|].
  cbn [List.length Nat.eqb ret].
  rewrite Hproc. reflexivity.
Qed.

(** When a fetched record cannot be shrunk, the records already put on
    screen are taken off again: the call ends with the exception's
    message as error and an empty list, although the response was good;
    [lastUpdated] has been renewed and the store is left as it was, old
    entry included. *)
Theorem fetchJokes_shrink_failure (selectedCategory : string) (forceRefresh : bool)
  (w : World) (r : Response) (data flag : value) (raw processed : list value)
  (e : exn) :
  goes_to_network selectedCategory forceRefresh w ->
  fetch (List.length (requests w)) (apiUrlOf selectedCategory) = Ok r ->
  ok r = true ->
  json r = Ok data ->
  get data "error" = Ok flag ->
  truthy flag = false ->
  normalize data = Ok raw ->
  raw <> [] ->
  map_result processJoke raw = Ok processed ->
  map_result limitAttributes processed = Thrown e ->
  let w' := snd (fetchJokes selectedCategory forceRefresh w) in
  error (ui w') = Some (message e) /\
  jokes (ui w') = VArr [] /\
  lastUpdated (ui w')
    = Some (Date_toLocaleString (VNum (Date_now (clock_reads w)))) /\
  storage w' = storage w.
Proof.
  intros Hnet Hfetch Hok Hjson Hflag Hfalsy Hnorm Hne Hproc Hlim w'. subst w'.
  erewrite (fetchJokes_failed _ _ _ _ _ Hnet).
  2: { rewrite (fetch_and_store_processed _ _ (loadingWorld w) r data flag raw
                  processed Hfetch Hok Hjson Hflag Hfalsy Hnorm Hne Hproc).
       unfold bind, lift. rewrite Hlim. reflexivity. }
  repeat split.
Qed.

(** When the store refuses the records but takes the timestamp, nothing
    is reported: the fresh records are shown without error, the records
    key holds what it held, and the timestamp key is renewed all the
    same. *)
Theorem fetchJokes_refused_records_write (selectedCategory : string)
  (forceRefresh : bool) (w : World) (r : Response) (data flag : value)
  (raw processed limited : list value) :
  goes_to_network selectedCategory forceRefresh w ->
  fetch (List.length (requests w)) (apiUrlOf selectedCategory) = Ok r ->
  ok r = true ->
  json r = Ok data ->
  get data "error" = Ok flag ->
  truthy flag = false ->
  normalize data = Ok raw ->
  raw <> [] ->
  map_result processJoke raw = Ok processed ->
  map_result limitAttributes processed = Ok limited ->
  quota_accepts (storage w) (storageKeyOf selectedCategory)
    (JSON_stringify (VArr limited)) = false ->
  quota_accepts (storage w) (timestampKeyOf selectedCategory)
    (Z_to_string (Date_now (S (clock_reads w)))) = true ->
  let w' := snd (fetchJokes selectedCategory forceRefresh w) in
  error (ui w') = None /\
  jokes (ui w') = VArr processed /\
  storage w' !! storageKeyOf selectedCategory
    = storage w !! storageKeyOf selectedCategory /\
  storage w' !! timestampKeyOf selectedCategory
    = Some (Z_to_string (Date_now (S (clock_reads w)))).
Proof.
  intros Hnet Hfetch Hok Hjson Hflag Hfalsy Hnorm Hne Hproc Hlim Hq1 Hq2 w'.
  subst w'.
  rewrite (fetchJokes_miss _ _ _ Hnet). unfold try_catch_finally.
  rewrite (fetch_and_store_processed _ _ (loadingWorld w) r data flag raw
             processed Hfetch Hok Hjson Hflag Hfalsy Hnorm Hne Hproc).
  unfold bind, lift. rewrite Hlim.
  unfold saveJokesToStorage, now, localStorage_setItem, with_storage,
    LocalStorage.saveJokesToStorage, LocalStorage.setItem.
  cbn [ui storage requests clock_reads loadingWorld].
  rewrite Hq1.
  cbn [ui storage requests clock_reads loadingWorld].
  change (storageKeyOf selectedCategory +:+ ":timestamp")
    with (timestampKeyOf selectedCategory).
  rewrite Hq2.
  cbn [fst snd setLoading modify_ui ui storage requests clock_reads jokes loading
       error category fromCache lastUpdated loadingWorld loadingState].
  repeat split.
  - apply lookup_insert_ne. intros H. symmetry in H.
    exact (storageKey_not_timestampKey selectedCategory H).
  - apply lookup_insert_eq.
Qed.

(** When the store takes the records but refuses the timestamp, the
    refusal is not swallowed: the call ends with an error and an empty
    list, yet the records stay written under the category's key. *)
Theorem fetchJokes_refused_stamp_write (selectedCategory : string)
  (forceRefresh : bool) (w : World) (r : Response) (data flag : value)
  (raw processed limited : list value) :
  goes_to_network selectedCategory forceRefresh w ->
  fetch (List.length (requests w)) (apiUrlOf selectedCategory) = Ok r ->
  ok r = true ->
  json r = Ok data ->
  get data "error" = Ok flag ->
  truthy flag = false ->
  normalize data = Ok raw ->
  raw <> [] ->
  map_result processJoke raw = Ok processed ->
  map_result limitAttributes processed = Ok limited ->
  quota_accepts (storage w) (storageKeyOf selectedCategory)
    (JSON_stringify (VArr limited)) = true ->
  quota_accepts
    (<[storageKeyOf selectedCategory := JSON_stringify (VArr limited)]> (storage w))
    (timestampKeyOf selectedCategory)
    (Z_to_string (Date_now (S (clock_reads w)))) = false ->
  let w' := snd (fetchJokes selectedCategory forceRefresh w) in
  (exists msg, error (ui w') = Some msg) /\
  jokes (ui w') = VArr [] /\
  storage w'
    = <[storageKeyOf selectedCategory := JSON_stringify (VArr limited)]> (storage w).
Proof.
  intros Hnet Hfetch Hok Hjson Hflag Hfalsy Hnorm Hne Hproc Hlim Hq1 Hq2 w'.
  subst w'.
  erewrite (fetchJokes_failed _ _ _ _ _ Hnet).
  2: { rewrite (fetch_and_store_processed _ _ (loadingWorld w) r data flag raw
                  processed Hfetch Hok Hjson Hflag Hfalsy Hnorm Hne Hproc).
       unfold bind, lift. rewrite Hlim.
       unfold saveJokesToStorage, now, localStorage_setItem, with_storage,
         LocalStorage.saveJokesToStorage, LocalStorage.setItem.
       cbn [ui storage requests clock_reads loadingWorld].
       rewrite Hq1.
       cbn [ui storage requests clock_reads loadingWorld].
       change (storageKeyOf selectedCategory +:+ ":timestamp")
         with (timestampKeyOf selectedCategory).
       rewrite Hq2. reflexivity. }
  cbn [snd ui storage error jokes].
  repeat split. eexists. reflexivity.
Qed.

End AfterProcessing.

Section AfterProcessingInstances.

Lemma fetchJokes_shrink_failure_witness :
  let w' := snd (JokeList.fetchJokes (host := setuplessHost) "Spooky" true
                   (sampleWorld JokeList.initialState staleItems)) in
  JokeList.error (JokeList.ui w')
    = Some "Cannot read properties of null (reading 'substring')" /\
  JokeList.jokes (JokeList.ui w') = VArr [] /\
  JokeList.storage w' = list_to_map staleItems.
Proof.
  destruct (fetchJokes_shrink_failure (host := setuplessHost) "Spooky" true
              (sampleWorld JokeList.initialState staleItems)
              {| ok := true; status := 200;
                 json := Ok (VObj [("jokes", VArr [setuplessRaw])]) |}
              (VObj [("jokes", VArr [setuplessRaw])]) VUndefined
              [setuplessRaw] [setuplessProcessed]
              (TypeError "Cannot read properties of null (reading 'substring')"))
    as (Herror & Hjokes & _ & Hstorage).
  - left. reflexivity.
  - reflexivity.
  - reflexivity.
  - reflexivity.
  - reflexivity.
  - reflexivity.
  - reflexivity.
  - discriminate.
  - reflexivity.
  - reflexivity.
  - exact (conj Herror (conj Hjokes Hstorage)).
Defined.

Lemma fetchJokes_refused_records_write_witness :
  let w' :=
    snd (JokeList.fetchJokes
           (host := crampedHost
                      (Ok {| ok := true; status := 200;
                             json := Ok (VObj [("jokes", VArr [sampleRaw])]) |})
                      (String.eqb "jokes:Programming:timestamp"))
           "Programming" true (sampleWorld JokeList.initialState staleItems)) in
  JokeList.error (JokeList.ui w') = None /\
  JokeList.jokes (JokeList.ui w') = VArr [sampleProcessed] /\
  JokeList.storage w' !! "jokes:Programming" = Some "stale" /\
  JokeList.storage w' !! "jokes:Programming:timestamp" = Some "1700000000001".
Proof.
  destruct (fetchJokes_refused_records_write
              (host := crampedHost
                         (Ok {| ok := true; status := 200;
                                json := Ok (VObj [("jokes", VArr [sampleRaw])]) |})
                         (String.eqb "jokes:Programming:timestamp"))
              "Programming" true (sampleWorld JokeList.initialState staleItems)
              {| ok := true; status := 200;
                 json := Ok (VObj [("jokes", VArr [sampleRaw])]) |}
              (VObj [("jokes", VArr [sampleRaw])]) VUndefined
              [sampleRaw] [sampleProcessed] [sampleLimited])
    as (Herror & Hjokes & Hrecords & Hstamp).
  - left. reflexivity.
  - reflexivity.
  - reflexivity.
  - reflexivity.
  - reflexivity.
  - reflexivity.
  - reflexivity.
  - discriminate.
  - reflexivity.
  - reflexivity.
  - reflexivity.
  - reflexivity.
  - refine (conj Herror (conj Hjokes (conj _ Hstamp))).
    transitivity (JokeList.storage (sampleWorld JokeList.initialState staleItems)
                    !! JokeList.storageKeyOf "Programming");
      [exact Hrecords | vm_compute; reflexivity].
Defined.

Lemma fetchJokes_refused_stamp_write_witness :
  let w' :=
    snd (JokeList.fetchJokes
           (host := crampedHost
                      (Ok {| ok := true; status := 200;
                             json := Ok (VObj [("jokes", VArr [sampleRaw])]) |})
                      (String.eqb "jokes:Programming"))
           "Programming" true (sampleWorld JokeList.initialState [])) in
  JokeList.jokes (JokeList.ui w') = VArr [] /\
  JokeList.storage w'
    = <["jokes:Programming" := sample_stringify (VArr [sampleLimited])]> ∅.
Proof.
  destruct (fetchJokes_refused_stamp_write
              (host := crampedHost
                         (Ok {| ok := true; status := 200;
                                json := Ok (VObj [("jokes", VArr [sampleRaw])]) |})
                         (String.eqb "jokes:Programming"))
              "Programming" true (sampleWorld JokeList.initialState [])
              {| ok := true; status := 200;
                 json := Ok (VObj [("jokes", VArr [sampleRaw])]) |}
              (VObj [("jokes", VArr [sampleRaw])]) VUndefined
              [sampleRaw] [sampleProcessed] [sampleLimited])
    as (_ & Hjokes & Hstorage).
  - left. reflexivity.
  - reflexivity.
  - reflexivity.
  - reflexivity.
  - reflexivity.
  - reflexivity.
  - reflexivity.
  - discriminate.
  - reflexivity.
  - reflexivity.
  - reflexivity.
  - reflexivity.
  - exact (conj Hjokes Hstorage).
Defined.

End AfterProcessingInstances.

(* ===================================================================== *)
(** ** Further properties: a fetch followed by a visit *)
(* ===================================================================== *)

Section Revisit.
Context {host : Host}.
Import JokeList.

Lemma load_of_lookup (key text : string) (v : value) (items : gmap string string) :
  items !! key = Some text -> text <> "" -> JSON_parse text = Ok v ->
  LocalStorage.loadJokesFromStorage key items = v.
Proof.
  intros Hlookup Hne Hparse.
  unfold LocalStorage.loadJokesFromStorage, LocalStorage.getItem.
  rewrite Hlookup.
  assert (truthy (VStr text) = true) as ->.
  { simpl. destruct text; [congruence | reflexivity]. }
  simpl. rewrite Hparse. reflexivity.
Qed.

Lemma Z_to_string_not_empty (n : Z) : Z_to_string n <> "".
Proof.
  unfold Z_to_string. destruct (Z.to_int n) as [d|d]; simpl.
  - destruct d; discriminate.
  - discriminate.
Qed.

(** What a successful call stores is what the next visit shows: after a
    call that fetched, processed and stored its records, a later call for
    the same category without forced refresh issues no request and shows
    the shrunk records, with [fromCache] set and [lastUpdated] made from
    the stored timestamp, provided the parser reads back what was
    printed. *)
Theorem fetch_then_revisit (selectedCategory : string) (forceRefresh : bool)
  (w : World) (r : Response) (data flag : value)
  (raw processed limited : list value) :
  goes_to_network selectedCategory forceRefresh w ->
  fetch (List.length (requests w)) (apiUrlOf selectedCategory) = Ok r ->
  ok r = true ->
  json r = Ok data ->
  get data "error" = Ok flag ->
  truthy flag = false ->
  normalize data = Ok raw ->
  raw <> [] ->
  map_result processJoke raw = Ok processed ->
  map_result limitAttributes processed = Ok limited ->
  quota_accepts (storage w) (storageKeyOf selectedCategory)
    (JSON_stringify (VArr limited)) = true ->
  quota_accepts
    (<[storageKeyOf selectedCategory := JSON_stringify (VArr limited)]> (storage w))
    (timestampKeyOf selectedCategory)
    (Z_to_string (Date_now (S (clock_reads w)))) = true ->
  reads_back (VArr limited) ->
  let w1 := snd (fetchJokes selectedCategory forceRefresh w) in
  let w2 := snd (fetchJokes selectedCategory false w1) in
  jokes (ui w1) = VArr processed /\
  requests w2 = requests w1 /\
  storage w2 = storage w1 /\
  jokes (ui w2) = VArr limited /\
  List.length limited = List.length processed /\
  fromCache (ui w2) = true /\
  lastUpdated (ui w2)
    = Some (Date_toLocaleString
              (VStr (Z_to_string (Date_now (S (clock_reads w)))))).
Proof.
  intros Hnet Hfetch Hok Hjson Hflag Hfalsy Hnorm Hne Hproc Hlim Hq1 Hq2
    [Hprinted Hparse] w1 w2.
  assert (limited <> []) as Hlimited.
  { apply (map_result_nonempty _ _ _ Hlim).
    apply (map_result_nonempty _ _ _ Hproc). exact Hne. }
  pose proof (storageKey_not_timestampKey selectedCategory) as Hkeys.
  assert (fetchJokes selectedCategory forceRefresh w
          = (Ok tt,
             {| ui := {| jokes := VArr processed; loading := false; error := None;
                         category := category (ui w); fromCache := false;
                         lastUpdated :=
                           Some (Date_toLocaleString
                                   (VNum (Date_now (clock_reads w)))) |};
                storage :=
                  <[timestampKeyOf selectedCategory
                      := Z_to_string (Date_now (S (clock_reads w)))]>
                    (<[storageKeyOf selectedCategory
                         := JSON_stringify (VArr limited)]> (storage w));
                requests := requests w ++ [apiUrlOf selectedCategory];
                clock_reads := S (S (clock_reads w)) |})) as Hfirst.
  { rewrite (fetchJokes_miss _ _ _ Hnet). unfold try_catch_finally.
    rewrite (fetch_and_store_commits _ _ (loadingWorld w) r data flag raw processed
               limited Hfetch Hok Hjson Hflag Hfalsy Hnorm Hne Hproc Hlim Hq1 Hq2).
    reflexivity. }
  subst w2 w1. rewrite Hfirst. cbn [snd].
  match goal with
  | |- context [fetchJokes selectedCategory false ?w0] => set (w1 := w0)
  end.
  assert (LocalStorage.loadJokesFromStorage (storageKeyOf selectedCategory)
            (storage w1) = VArr limited) as Hload.
  { apply (load_of_lookup _ (JSON_stringify (VArr limited))); try assumption.
    subst w1. cbn [storage].
    rewrite lookup_insert_ne by congruence. apply lookup_insert_eq. }
  rewrite (fetchJokes_hit _ _ _ Hload (usable_nonempty_array _ Hlimited)).
  destruct (serve_from_cache_world (storageKeyOf selectedCategory) (VArr limited) w1)
    as (when & reads & Heq & Hwhen).
  rewrite Heq. cbn [snd ui jokes fromCache lastUpdated requests storage].
  split; [reflexivity|].
  split; [reflexivity|].
  split; [reflexivity|].
  split; [reflexivity|].
  split; [apply (map_result_length _ _ _ Hlim)|].
  split; [reflexivity|].
  rewrite Hwhen. unfold LocalStorage.getItem.
  change (storageKeyOf selectedCategory +:+ ":timestamp")
    with (timestampKeyOf selectedCategory).
  subst w1. cbn [storage]. rewrite lookup_insert_eq.
  assert (truthy (VStr (Z_to_string (Date_now (S (clock_reads w))))) = true) as ->.
  { simpl. pose proof (Z_to_string_not_empty (Date_now (S (clock_reads w)))) as Hz.
    destruct (Z_to_string (Date_now (S (clock_reads w)))); [congruence | reflexivity]. }
  reflexivity.
Qed.

End Revisit.

Lemma fetch_then_revisit_witness :
  let w1 := snd (JokeList.fetchJokes (host := revisitHost) "Programming" false
                   (sampleWorld JokeList.initialState [])) in
  let w2 := snd (JokeList.fetchJokes (host := revisitHost) "Programming" false w1) in
  JokeList.jokes (JokeList.ui w1) = VArr [sampleProcessed] /\
  JokeList.requests w2 = JokeList.requests w1 /\
  JokeList.jokes (JokeList.ui w2) = VArr [sampleLimited] /\
  JokeList.fromCache (JokeList.ui w2) = true.
Proof.
  destruct (fetch_then_revisit (host := revisitHost) "Programming" false
              (sampleWorld JokeList.initialState [])
              {| ok := true; status := 200;
                 json := Ok (VObj [("jokes", VArr [sampleRaw])]) |}
              (VObj [("jokes", VArr [sampleRaw])]) VUndefined
              [sampleRaw] [sampleProcessed] [sampleLimited])
    as (Hshown & Hrequests & _ & Hjokes & _ & Hfrom & _).
  - right. vm_compute. reflexivity.
  - reflexivity.
  - reflexivity.
  - reflexivity.
  - reflexivity.
  - reflexivity.
  - reflexivity.
  - discriminate.
  - reflexivity.
  - reflexivity.
  - reflexivity.
  - reflexivity.
  - split; [discriminate | vm_compute; reflexivity].
  - exact (conj Hshown (conj Hrequests (conj Hjokes Hfrom))).
Defined.

(* ===================================================================== *)
(** ** Further properties: records and their projections *)
(* ===================================================================== *)

Section Records.

Lemma or_else_null_twice (x : value) :
  or_else (or_else x VNull) VNull = or_else x VNull.
Proof.
  unfold or_else. destruct (truthy x) eqn:E; [rewrite E|]; reflexivity.
Qed.

Lemma or_else_null_cases (x : value) :
  or_else x VNull = VNull \/ truthy (or_else x VNull) = true.
Proof.
  unfold or_else. destruct (truthy x) eqn:E; [right; exact E | left; reflexivity].
Qed.

(** [processJoke] accepts everything but [null] and [undefined], always
    builds the same seven fields, gives texts that are [null] or truthy
    (never [undefined], never empty), and changes nothing when applied to
    its own result. *)
Theorem processJoke_normal_form (raw : value) :
  defined raw = true ->
  exists ps,
    JokeList.processJoke raw = Ok (VObj ps) /\
    map fst ps = ["id"; "joke"; "setup"; "delivery"; "category"; "type"; "flags"] /\
    JokeList.processJoke (VObj ps) = Ok (VObj ps) /\
    (forall k, In k ["joke"; "setup"; "delivery"] ->
               lookup_prop k ps = VNull \/ truthy (lookup_prop k ps) = true).
Proof.
  intros Hdefined.
  assert (exists id text setup delivery category type flags,
             JokeList.processJoke raw
             = Ok (VObj [("id", id); ("joke", or_else text VNull);
                         ("setup", or_else setup VNull);
                         ("delivery", or_else delivery VNull);
                         ("category", category); ("type", type);
                         ("flags", flags)])) as Hshape.
  { destruct raw; try discriminate; simpl; repeat eexists. }
  destruct Hshape as (id & text & setup & delivery & category & type & flags & Heq).
  eexists. split; [exact Heq|].
  split; [reflexivity|].
  split.
  - unfold JokeList.processJoke. simpl.
    rewrite !or_else_null_twice. reflexivity.
  - intros k [<-|[<-|[<-|[]]]]; simpl; apply or_else_null_cases.
Qed.

Lemma processJoke_normal_form_witness :
  exists ps,
    JokeList.processJoke sampleRaw = Ok (VObj ps) /\
    map fst ps = ["id"; "joke"; "setup"; "delivery"; "category"; "type"; "flags"].
Proof.
  destruct (processJoke_normal_form sampleRaw) as (ps & Heq & Hkeys & _).
  - reflexivity.
  - exists ps. exact (conj Heq Hkeys).
Defined.

Lemma limitAttributes_not_string (ps : list (string * value)) :
  (forall s, summarisedText ps <> VStr s) ->
  exists e, JokeList.limitAttributes (VObj ps) = Thrown e.
Proof.
  unfold summarisedText, JokeList.limitAttributes.
  rewrite !get_object. simpl.
  destruct (strict_eq_str (lookup_prop "type" ps) "twopart"); simpl; intros Hnot.
  - destruct (lookup_prop "setup" ps) as [| |b|n|s|l|o]; simpl; eauto.
    exfalso. exact (Hnot s eq_refl).
  - destruct (lookup_prop "joke" ps) as [| |b|n|s|l|o]; simpl; eauto.
    exfalso. exact (Hnot s eq_refl).
Qed.

Lemma limitAttributes_refactored_falsy (ps : list (string * value)) :
  truthy (summarisedText ps) = false ->
  JokeListRefactored.limitAttributes (VObj ps) = Ok (shrunk ps "").
Proof.
  unfold summarisedText, JokeListRefactored.limitAttributes, shrunk.
  rewrite !get_object. simpl.
  destruct (strict_eq_str (lookup_prop "type" ps) "twopart"); simpl;
    intros ->; reflexivity.
Qed.

Lemma limitAttributes_refactored_not_string (ps : list (string * value)) :
  truthy (summarisedText ps) = true ->
  (forall s, summarisedText ps <> VStr s) ->
  exists e, JokeListRefactored.limitAttributes (VObj ps) = Thrown e.
Proof.
  unfold summarisedText, JokeListRefactored.limitAttributes.
  rewrite !get_object. simpl.
  destruct (strict_eq_str (lookup_prop "type" ps) "twopart"); simpl;
    intros Htruthy Hnot; rewrite Htruthy.
  - destruct (lookup_prop "setup" ps) as [| |b|n|s|l|o]; simpl in *;
      try discriminate; eauto.
    exfalso. exact (Hnot s eq_refl).
  - destruct (lookup_prop "joke" ps) as [| |b|n|s|l|o]; simpl in *;
      try discriminate; eauto.
    exfalso. exact (Hnot s eq_refl).
Qed.

Lemma string_or_not (v : value) :
  (exists s, v = VStr s) \/ (forall s, v <> VStr s).
Proof.
  destruct v; try (right; intros s' H; discriminate H). left. eauto.
Qed.

(** When the two versions of [limitAttributes] succeed on an object:
    the component's exactly when the summarised text is a string; the
    refactored one also when that text is falsy (absent, [null], empty),
    and then the summary is empty. *)
Theorem limitAttributes_domain (ps : list (string * value)) :
  ((exists r, JokeList.limitAttributes (VObj ps) = Ok r) <->
   (exists s, summarisedText ps = VStr s)) /\
  ((exists r, JokeListRefactored.limitAttributes (VObj ps) = Ok r) <->
   (truthy (summarisedText ps) = false \/ exists s, summarisedText ps = VStr s)) /\
  (truthy (summarisedText ps) = false ->
   JokeListRefactored.limitAttributes (VObj ps) = Ok (shrunk ps "")).
Proof.
  split; [|split].
  - split.
    + intros [r Hr].
      destruct (string_or_not (summarisedText ps)) as [Hs | Hnot]; [exact Hs|].
      destruct (limitAttributes_not_string ps Hnot) as [e He]. congruence.
    + intros [s Hs]. eexists. apply (limitAttributes_string ps s Hs).
  - split.
    + intros [r Hr].
      destruct (truthy (summarisedText ps)) eqn:Htruthy; [|left; reflexivity].
      right.
      destruct (string_or_not (summarisedText ps)) as [Hs | Hnot]; [exact Hs|].
      destruct (limitAttributes_refactored_not_string ps Htruthy Hnot) as [e He].
      congruence.
    + intros [Hfalsy | [s Hs]].
      * eexists. apply (limitAttributes_refactored_falsy ps Hfalsy).
      * destruct (truthy (summarisedText ps)) eqn:Htruthy.
        -- eexists. apply (limitAttributes_refactored_string ps s Hs).
           intros ->. rewrite Hs in Htruthy. discriminate Htruthy.
        -- eexists. apply (limitAttributes_refactored_falsy ps Htruthy).
  - apply limitAttributes_refactored_falsy.
Qed.

End Records.

Section Projections.

Lemma summary_with_marker_length (s : string) :
  (3 <= String.length (Js.substring s 0 50 +:+ "...") <= 53)%nat.
Proof.
  rewrite append_length. pose proof (substring_from_start_length s 50). simpl. lia.
Qed.

(** Whichever version shrinks a record, the result has exactly the
    fields id, summary, category and type, and its summary has at most
    53 characters and is empty or ends with "..."; the component's
    summary is never empty. *)
Theorem shrunk_summary_bounded (joke r : value) :
  JokeList.limitAttributes joke = Ok r \/
  JokeListRefactored.limitAttributes joke = Ok r ->
  exists id summary category type,
    r = VObj [("id", id); ("summary", VStr summary);
              ("category", category); ("type", type)] /\
    (String.length summary <= 53)%nat /\
    (summary = "" \/ ends_with "..." summary) /\
    (JokeList.limitAttributes joke = Ok r -> (3 <= String.length summary)%nat).
Proof.
  assert (forall ps s,
             exists id summary category type,
               shrunk ps (Js.substring s 0 50 +:+ "...")
               = VObj [("id", id); ("summary", VStr summary);
                       ("category", category); ("type", type)] /\
               (String.length summary <= 53)%nat /\
               (summary = "" \/ ends_with "..." summary) /\
               (3 <= String.length summary)%nat) as Hmarked.
  { intros ps s. unfold shrunk. do 4 eexists. split; [reflexivity|].
    pose proof (summary_with_marker_length s) as Hlen.
    split; [lia|]. split; [|lia]. right. eexists. reflexivity. }
  destruct joke as [| |b|n|t|l|ps].
  - intros [H | H]; discriminate H.
  - intros [H | H]; discriminate H.
  - intros [H | H]; [discriminate H|]. injection H as <-.
    do 4 eexists. split; [reflexivity|]. simpl.
    split; [lia|]. split; [left; reflexivity | intros H; discriminate H].
  - intros [H | H]; [discriminate H|]. injection H as <-.
    do 4 eexists. split; [reflexivity|]. simpl.
    split; [lia|]. split; [left; reflexivity | intros H; discriminate H].
  - intros [H | H]; [discriminate H|]. injection H as <-.
    do 4 eexists. split; [reflexivity|]. simpl.
    split; [lia|]. split; [left; reflexivity | intros H; discriminate H].
  - intros [H | H]; [discriminate H|]. injection H as <-.
    do 4 eexists. split; [reflexivity|]. simpl.
    split; [lia|]. split; [left; reflexivity | intros H; discriminate H].
  - destruct (string_or_not (summarisedText ps)) as [[s Hs] | Hnot].
    + pose proof (limitAttributes_string ps s Hs) as Hcomponent.
      destruct (Hmarked ps s) as (id & summary & category & type & Heq & Hlen & Hend & Hmin).
      intros [H | H].
      * rewrite Hcomponent in H. injection H as <-.
        exists id, summary, category, type. auto.
      * destruct (truthy (summarisedText ps)) eqn:Htruthy.
        -- rewrite (limitAttributes_refactored_string ps s Hs) in H.
           ++ injection H as <-. exists id, summary, category, type.
              repeat split; auto.
           ++ intros ->. rewrite Hs in Htruthy. discriminate Htruthy.
        -- rewrite (limitAttributes_refactored_falsy ps Htruthy) in H.
           injection H as <-. unfold shrunk. do 4 eexists.
           split; [reflexivity|]. simpl. split; [lia|].
           split; [left; reflexivity|].
           intros H. rewrite Hcomponent in H. injection H as H.
           apply (f_equal String.length) in H.
           pose proof (summary_with_marker_length s). simpl in H. lia.
    + destruct (limitAttributes_not_string ps Hnot) as [e He].
      intros [H | H]; [congruence|].
      destruct (truthy (summarisedText ps)) eqn:Htruthy.
      * destruct (limitAttributes_refactored_not_string ps Htruthy Hnot) as [e' He'].
        congruence.
      * rewrite (limitAttributes_refactored_falsy ps Htruthy) in H.
        injection H as <-. unfold shrunk. do 4 eexists.
        split; [reflexivity|]. simpl. split; [lia|].
        split; [left; reflexivity|]. intros H. congruence.
Qed.

Lemma shrunk_summary_bounded_witness :
  exists id summary category type,
    sampleLimited = VObj [("id", id); ("summary", VStr summary);
                          ("category", category); ("type", type)] /\
    (String.length summary <= 53)%nat.
Proof.
  destruct (shrunk_summary_bounded sampleProcessed sampleLimited)
    as (id & summary & category & type & Heq & Hlen & _).
  - left. reflexivity.
  - exists id, summary, category, type. exact (conj Heq Hlen).
Defined.

Lemma processJoke_summarisedText (ps : list (string * value)) :
  exists ps',
    JokeList.processJoke (VObj ps) = Ok (VObj ps') /\
    summarisedText ps' = or_else (summarisedText ps) VNull.
Proof.
  eexists. split; [reflexivity|].
  unfold summarisedText. simpl.
  destruct (strict_eq_str (lookup_prop "type" ps) "twopart"); reflexivity.
Qed.

(** A raw record whose summarised text is missing, [null] or empty is
    processed into a full record with a [null] text; the component's
    [limitAttributes] throws a TypeError on that record, the refactored
    one gives it an empty summary. *)
Theorem absent_text_throws_or_empty (ps : list (string * value)) :
  truthy (summarisedText ps) = false ->
  exists ps',
    JokeList.processJoke (VObj ps) = Ok (VObj ps') /\
    summarisedText ps' = VNull /\
    JokeList.limitAttributes (VObj ps')
      = Thrown (TypeError "Cannot read properties of null (reading 'substring')") /\
    JokeListRefactored.limitAttributes (VObj ps') = Ok (shrunk ps' "").
Proof.
  intros Hfalsy.
  destruct (processJoke_summarisedText ps) as (ps' & Hproc & Htext).
  unfold or_else in Htext. rewrite Hfalsy in Htext.
  exists ps'. split; [exact Hproc|]. split; [exact Htext|]. split.
  - revert Htext. unfold summarisedText, JokeList.limitAttributes.
    rewrite !get_object. simpl.
    destruct (strict_eq_str (lookup_prop "type" ps') "twopart"); simpl;
      intros ->; reflexivity.
  - apply limitAttributes_refactored_falsy. rewrite Htext. reflexivity.
Qed.

Lemma absent_text_throws_or_empty_witness :
  exists ps',
    JokeList.processJoke setuplessRaw = Ok (VObj ps') /\
    JokeList.limitAttributes (VObj ps')
      = Thrown (TypeError "Cannot read properties of null (reading 'substring')").
Proof.
  destruct (absent_text_throws_or_empty
              [("id", VNum 7); ("type", VStr "twopart"); ("delivery", VStr "Boo.")])
    as (ps' & Hproc & _ & Hthrow & _).
  - reflexivity.
  - exists ps'. exact (conj Hproc Hthrow).
Defined.

End Projections.

(* ===================================================================== *)
(** ** Further properties: what is drawn *)
(* ===================================================================== *)

Section Drawing.
Context {host : Host}.
Import JokeList.

Lemma truthy_defined (v : value) : truthy v = true -> defined v = true.
Proof. destruct v; simpl; intros H; try discriminate; reflexivity. Qed.

Lemma get_index_defined (v : value) (i : Z) :
  defined v = true -> exists x, get_index v i = Ok x.
Proof. destruct v; simpl; intros H; try discriminate; eauto. Qed.

Lemma get_defined (v : value) (k : string) :
  defined v = true -> exists x, get v k = Ok x.
Proof. destruct v; simpl; intros H; try discriminate; eauto. Qed.


(** Neither renderer throws as long as [jokes] is not [null] or
    [undefined]. *)
Lemma JokeRow_does_not_throw (s : State) (index : Z) (style : value) :
  defined (jokes s) = true -> exists row, JokeRow s index style = Ok row.
Proof.
  intros Hdefined.
  destruct (get_index_defined (jokes s) index Hdefined) as [joke Hjoke].
  unfold JokeRow. rewrite Hjoke. cbn [rbind].
  destruct (truthy joke) eqn:Htruthy; cbn [negb]; [|eauto].
  destruct (get_truthy joke "summary" Htruthy) as [summary Hsummary].
  destruct (get_truthy joke "category" Htruthy) as [category Hcategory].
  destruct (get_truthy joke "id" Htruthy) as [id Hid].
  destruct (get_truthy joke "type" Htruthy) as [type Htype].
  destruct (get_truthy joke "setup" Htruthy) as [setup Hsetup].
  destruct (get_truthy joke "delivery" Htruthy) as [delivery Hdelivery].
  destruct (get_truthy joke "joke" Htruthy) as [text Htext].
  destruct (get_truthy joke "flags" Htruthy) as [flags Hflags].
  destruct (fromCache s).
  - rewrite Hsummary. cbn [rbind]. rewrite Hcategory. cbn [rbind].
    rewrite Hid. cbn [rbind]. rewrite Htype. cbn [rbind]. eauto.
  - rewrite Htype. cbn [rbind].
    destruct (strict_eq_str type "twopart");
      rewrite ?Hsetup, ?Htext; cbn [rbind]; rewrite ?Hdelivery; cbn [rbind];
      rewrite Hcategory; cbn [rbind]; rewrite Hid; cbn [rbind];
      rewrite Hflags; cbn [rbind]; rewrite shownFlags_eq; cbn [rbind]; eauto.
Qed.

Lemma statusPanel_does_not_throw (s : State) :
  defined (jokes s) = true -> exists panel, statusPanel s = Ok panel.
Proof.
  intros Hdefined. unfold statusPanel.
  destruct (loading s); [eauto|].
  destruct (truthy (errorValue s)); [eauto|].
  destruct (get_defined (jokes s) "length" Hdefined) as [len Hlen].
  rewrite Hlen. cbn [rbind]. destruct (is_zero len); eauto.
Qed.

Lemma usable_defined (v : value) : usable v = true -> defined v = true.
Proof.
  unfold usable. destruct (truthy v) eqn:E; [|discriminate].
  intros _. apply truthy_defined. exact E.
Qed.

(** After any call [jokes] is neither [null] nor [undefined]. *)
Lemma fetchJokes_jokes_defined (selectedCategory : string) (forceRefresh : bool)
  (w : World) :
  defined (jokes (ui (snd (fetchJokes selectedCategory forceRefresh w)))) = true.
Proof.
  destruct (hit_or_miss selectedCategory forceRefresh w) as [[-> Hhit]|Hnet].
  - rewrite (fetchJokes_hit _ _ _ eq_refl Hhit).
    destruct (serve_from_cache_world (storageKeyOf selectedCategory)
                (LocalStorage.loadJokesFromStorage
                   (storageKeyOf selectedCategory) (storage w)) w)
      as (when & reads & Heq & _).
    rewrite Heq. simpl. apply usable_defined. exact Hhit.
  - destruct (fetch_and_store (storageKeyOf selectedCategory) selectedCategory
                (loadingWorld w)) as [[[]|e] w1] eqn:Hbody.
    + destruct (fetch_and_store_done _ _ _ _ Hbody) as (processed & _ & Hjokes).
      rewrite (fetchJokes_miss _ _ _ Hnet).
      unfold try_catch_finally. rewrite Hbody. simpl. rewrite Hjokes. reflexivity.
    + rewrite (fetchJokes_failed _ _ _ _ _ Hnet Hbody). reflexivity.
Qed.

(** Whatever a call was given and however it ended, the state it leaves
    can be drawn: the panel and every row, at any index, are made
    without an exception, and the panel is not the loading indicator. *)
Theorem drawable_after_fetchJokes (selectedCategory : string) (forceRefresh : bool)
  (w : World) (index : Z) (style : value) :
  let s' := ui (snd (fetchJokes selectedCategory forceRefresh w)) in
  (exists panel, statusPanel s' = Ok panel /\
                 find_class "loading-indicator" panel = None) /\
  (exists row, JokeRow s' index style = Ok row) /\
  (exists row, JokeListRefactored.JokeRow (jokes s') (fromCache s') index style
               = Ok row).
Proof.
  intros s'.
  pose proof (fetchJokes_jokes_defined selectedCategory forceRefresh w) as Hdefined.
  fold s' in Hdefined.
  assert (loading s' = false) as Hloading.
  { subst s'.
    destruct (hit_or_miss selectedCategory forceRefresh w) as [[-> Hhit]|Hnet].
    - rewrite (fetchJokes_hit _ _ _ eq_refl Hhit).
      destruct (serve_from_cache_world (storageKeyOf selectedCategory)
                  (LocalStorage.loadJokesFromStorage
                     (storageKeyOf selectedCategory) (storage w)) w)
        as (when & reads & Heq & _).
      rewrite Heq. reflexivity.
    - rewrite (fetchJokes_miss _ _ _ Hnet). apply guarded_request_ends_loading. }
  split; [|split].
  - unfold statusPanel. rewrite Hloading.
    destruct (truthy (errorValue s')); [eexists; split; reflexivity|].
    destruct (get_defined (jokes s') "length" Hdefined) as [len Hlen].
    rewrite Hlen. cbn [rbind].
    destruct (is_zero len); eexists; split; reflexivity.
  - apply JokeRow_does_not_throw. exact Hdefined.
  - destruct (get_index_defined (jokes s') index Hdefined) as [joke Hjoke].
    unfold JokeListRefactored.JokeRow. rewrite Hjoke. cbn [rbind].
    destruct (truthy joke) eqn:Htruthy; cbn [negb]; [|eauto].
    destruct (get_truthy joke "summary" Htruthy) as [summary Hsummary].
    destruct (get_truthy joke "category" Htruthy) as [category Hcategory].
    destruct (get_truthy joke "id" Htruthy) as [id Hid].
    destruct (get_truthy joke "type" Htruthy) as [type Htype].
    destruct (get_truthy joke "setup" Htruthy) as [setup Hsetup].
    destruct (get_truthy joke "delivery" Htruthy) as [delivery Hdelivery].
    destruct (get_truthy joke "joke" Htruthy) as [text Htext].
    destruct (get_truthy joke "flags" Htruthy) as [flags Hflags].
    destruct (fromCache s').
    + rewrite Hsummary. cbn [rbind]. rewrite Hcategory. cbn [rbind].
      rewrite Hid. cbn [rbind]. rewrite Htype. cbn [rbind]. eauto.
    + rewrite Htype. cbn [rbind].
      destruct (strict_eq_str type "twopart");
        rewrite ?Hsetup, ?Htext; cbn [rbind]; rewrite ?Hdelivery; cbn [rbind];
        rewrite Hcategory; cbn [rbind]; rewrite Hid; cbn [rbind];
        rewrite Hflags; cbn [rbind]; rewrite flagsChild_eq; cbn [rbind]; eauto.
Qed.

(** A call answered from cache does not clear an earlier error, and the
    panel tests the error before the list: with a non-empty message left
    over, the panel after the cache hit is that error message, not the
    cached jokes; only without one is it the list, counting the cached
    records. *)
Theorem panel_after_cache_hit (selectedCategory : string) (w : World)
  (cached : list value) :
  LocalStorage.loadJokesFromStorage (storageKeyOf selectedCategory) (storage w)
    = VArr cached ->
  cached <> [] ->
  let s' := ui (snd (fetchJokes selectedCategory false w)) in
  (forall msg, error (ui w) = Some msg -> msg <> "" ->
     statusPanel s'
     = Ok (Element "div" [className "error-message"]
             [Text "Error: "; Expr (VStr msg)])) /\
  (error (ui w) = None \/ error (ui w) = Some "" ->
   exists panel,
     statusPanel s' = Ok panel /\
     find_class "jokes-count" panel
       = Some (Element "div" [className "jokes-count"]
                 [Text "Showing "; Expr (VNum (Z.of_nat (List.length cached)));
                  Text " jokes"]) /\
     find_class "error-message" panel = None).
Proof.
  intros Hload Hne s'. subst s'.
  rewrite (fetchJokes_hit _ _ _ Hload (usable_nonempty_array _ Hne)).
  destruct (serve_from_cache_world (storageKeyOf selectedCategory) (VArr cached) w)
    as (when & reads & Heq & _).
  rewrite Heq. cbn [snd ui]. unfold statusPanel, errorValue.
  cbn [loading error jokes].
  split.
  - intros msg -> Hmsg.
    assert (truthy (VStr msg) = true) as ->.
    { simpl. destruct msg; [congruence | reflexivity]. }
    reflexivity.
  - intros [-> | ->]; simpl.
    + destruct cached as [|x cached]; [congruence|].
      eexists. split; [reflexivity|]. split; reflexivity.
    + destruct cached as [|x cached]; [congruence|].
      eexists. split; [reflexivity|]. split; reflexivity.
Qed.

End Drawing.


Lemma panel_after_cache_hit_witness :
  JokeList.statusPanel
    (JokeList.ui (snd (JokeList.fetchJokes (host := offlineHost) "Dark" false
                         (sampleWorld failedState storedItems))))
  = Ok (Element "div" [className "error-message"]
          [Text "Error: "; Expr (VStr "Failed to fetch")]).
Proof.
  destruct (panel_after_cache_hit (host := offlineHost) "Dark"
              (sampleWorld failedState storedItems) [sampleShrunk])
    as (Hstale & _).
  - vm_compute. reflexivity.
  - discriminate.
  - apply (Hstale "Failed to fetch"); [reflexivity | discriminate].
Defined.

(* ===================================================================== *)
(** ** Further properties: the handlers *)
(* ===================================================================== *)

Section Handlers.
Context {host : Host}.
Import JokeList.

(** Clear Cache with a refetch that fails (the request is rejected or
    the body does not parse) leaves the category without any cache entry:
    both keys are gone, the list is empty, the error is shown, one
    request was made, and a later visit will go to the network again. *)
Theorem handleClearCache_failed_refetch (w : World) (e : exn) :
  fetch (List.length (requests w)) (apiUrlOf (category (ui w))) = Thrown e \/
  (exists r, fetch (List.length (requests w)) (apiUrlOf (category (ui w))) = Ok r /\
             ok r = true /\ json r = Thrown e) ->
  let w' := snd (handleClearCache w) in
  storage w' !! storageKeyOf (category (ui w)) = None /\
  storage w' !! timestampKeyOf (category (ui w)) = None /\
  (forall k, k <> storageKeyOf (category (ui w)) ->
             k <> timestampKeyOf (category (ui w)) ->
             storage w' !! k = storage w !! k) /\
  jokes (ui w') = VArr [] /\
  error (ui w') = Some (message e) /\
  requests w' = (requests w ++ [apiUrlOf (category (ui w))])%list /\
  goes_to_network (category (ui w)) false w'.
Proof.
  intros Hrejected w'.
  pose proof (storageKey_not_timestampKey (category (ui w))) as Hkeys.
  set (cleared := delete (timestampKeyOf (category (ui w)))
                    (delete (storageKeyOf (category (ui w))) (storage w))).
  assert (handleClearCache w
          = fetchJokes (category (ui w)) true (with_storage cleared w)) as Hstep
    by reflexivity.
  subst w'. rewrite Hstep.
  rewrite (fetchJokes_failed _ _ _ _ _ (or_introl eq_refl)
             (fetch_and_store_rejected _ _ (loadingWorld (with_storage cleared w))
                e Hrejected)).
  cbn [snd ui storage requests jokes error loadingWorld with_storage].
  assert (cleared !! storageKeyOf (category (ui w)) = None) as Hrecords.
  { unfold cleared. rewrite lookup_delete_ne by congruence. apply lookup_delete_eq. }
  split; [exact Hrecords|].
  split; [apply lookup_delete_eq|].
  split.
  { intros k Hk1 Hk2. unfold cleared.
    rewrite !lookup_delete_ne by congruence. reflexivity. }
  split; [reflexivity|]. split; [reflexivity|]. split; [reflexivity|].
  right. cbn [storage].
  unfold LocalStorage.loadJokesFromStorage, LocalStorage.getItem.
  rewrite Hrecords. reflexivity.
Qed.

End Handlers.

Lemma handleClearCache_failed_refetch_witness :
  let w' := snd (JokeList.handleClearCache (host := offlineHost)
                   (sampleWorld failedState storedItems)) in
  JokeList.storage w' !! "jokes:Dark" = None /\
  JokeList.storage w' !! "jokes:Dark:timestamp" = None /\
  JokeList.jokes (JokeList.ui w') = VArr [].
Proof.
  destruct (handleClearCache_failed_refetch (host := offlineHost)
              (sampleWorld failedState storedItems) (TypeError "Failed to fetch"))
    as (Hrecords & Hstamp & _ & Hjokes & _).
  - left. reflexivity.
  - exact (conj Hrecords (conj Hstamp Hjokes)).
Defined.

(* ===================================================================== *)
(** ** Further properties: the refactored controller *)
(* ===================================================================== *)

Section Refactored.
Context {host : Host}.

(** The optional chain accepts the same cached values as the
    component's test. *)
Lemma refactored_usable_agrees (v : value) :
  JokeListRefactored.usable v = JokeList.usable v.
Proof.
  unfold JokeListRefactored.usable, JokeList.usable.
  destruct v as [| |b|n|s|l|ps]; simpl; try reflexivity.
  - destruct b; reflexivity.
  - destruct (n =? 0); reflexivity.
  - destruct s; reflexivity.
Qed.

(** With a usable cache entry for the current category, the refactored
    [fetchJokes(false)] and the component's [fetchJokes(category)] leave
    exactly the same world: same cells, same store, no request, the clock
    read only when the timestamp key is missing or empty. *)
Theorem refactored_agrees_on_cache_hit (w : JokeList.World) :
  JokeList.usable
    (LocalStorage.loadJokesFromStorage
       (JokeList.storageKeyOf (JokeList.category (JokeList.ui w)))
       (JokeList.storage w)) = true ->
  JokeListRefactored.fetchJokes false w
    = JokeList.fetchJokes (JokeList.category (JokeList.ui w)) false w /\
  JokeList.requests (snd (JokeListRefactored.fetchJokes false w))
    = JokeList.requests w.
Proof.
  intros Hhit.
  assert (JokeListRefactored.fetchJokes false w
          = JokeList.fetchJokes (JokeList.category (JokeList.ui w)) false w) as Heq.
  { rewrite (fetchJokes_hit _ _ _ eq_refl Hhit).
    unfold JokeListRefactored.fetchJokes, JokeList.bind,
      JokeList.loadJokesFromStorage, JokeList.localStorage_getItem.
    cbn [negb andb].
    change (JokeListRefactored.storageKeyOf (JokeList.category (JokeList.ui w)))
      with (JokeList.storageKeyOf (JokeList.category (JokeList.ui w))).
    rewrite refactored_usable_agrees, Hhit.
    unfold JokeListRefactored.serve_from_cache, JokeList.serve_from_cache,
      JokeList.bind, JokeList.localStorage_getItem, JokeListRefactored.formatDate.
    cbn [JokeList.setJokes JokeList.setFromCache JokeList.modify_ui fst snd
         JokeList.ui JokeList.storage].
    change (JokeListRefactored.timestampKeyOf (JokeList.category (JokeList.ui w)))
      with (JokeList.storageKeyOf (JokeList.category (JokeList.ui w))
              +:+ ":timestamp").
    destruct (truthy (LocalStorage.getItem
                        (JokeList.storageKeyOf (JokeList.category (JokeList.ui w))
                           +:+ ":timestamp") (JokeList.storage w)));
      reflexivity. }
  split; [exact Heq|].
  rewrite Heq, (fetchJokes_hit _ _ _ eq_refl Hhit).
  apply quiet_serve_from_cache.
Qed.

(** The refactored call, when it goes to the network. *)
Lemma refactored_fetchJokes_miss (forceRefresh : bool) (w : JokeList.World) :
  goes_to_network (JokeList.category (JokeList.ui w)) forceRefresh w ->
  JokeListRefactored.fetchJokes forceRefresh w
  = JokeList.try_catch_finally
      (JokeListRefactored.fetch_and_store (JokeList.category (JokeList.ui w))
         (JokeListRefactored.storageKeyOf (JokeList.category (JokeList.ui w)))
         (JokeListRefactored.timestampKeyOf (JokeList.category (JokeList.ui w))))
      JokeList.on_error (JokeList.setLoading false) (loadingWorld w).
Proof.
  intros [Hforce | Hmiss].
  - subst forceRefresh. reflexivity.
  - destruct forceRefresh; [reflexivity|].
    unfold JokeListRefactored.fetchJokes, JokeList.bind,
      JokeList.loadJokesFromStorage, JokeList.localStorage_getItem.
    cbn [negb andb fst snd].
    change (JokeListRefactored.storageKeyOf (JokeList.category (JokeList.ui w)))
      with (JokeList.storageKeyOf (JokeList.category (JokeList.ui w))).
    rewrite refactored_usable_agrees, Hmiss. reflexivity.
Qed.

(** A successful refactored call reads the clock once: the time shown
    in [lastUpdated] and the time stored under the timestamp key are the
    same reading. The records shown are the full ones and the records
    stored are their refactored projections. *)
Theorem refactored_fetchJokes_commits (forceRefresh : bool) (w : JokeList.World)
  (r : Response) (data flag : value) (raw processed limited : list value) :
  let category := JokeList.category (JokeList.ui w) in
  let now := Date_now (JokeList.clock_reads w) in
  goes_to_network category forceRefresh w ->
  fetch (List.length (JokeList.requests w)) (JokeListRefactored.apiUrlOf category)
    = Ok r ->
  ok r = true ->
  json r = Ok data ->
  get data "error" = Ok flag ->
  truthy flag = false ->
  JokeList.normalize data = Ok raw ->
  raw <> [] ->
  map_result JokeList.processJoke raw = Ok processed ->
  map_result JokeListRefactored.limitAttributes processed = Ok limited ->
  quota_accepts (JokeList.storage w) (JokeListRefactored.storageKeyOf category)
    (JSON_stringify (VArr limited)) = true ->
  quota_accepts
    (<[JokeListRefactored.storageKeyOf category := JSON_stringify (VArr limited)]>
       (JokeList.storage w))
    (JokeListRefactored.timestampKeyOf category) (Z_to_string now) = true ->
  let w' := snd (JokeListRefactored.fetchJokes forceRefresh w) in
  JokeList.jokes (JokeList.ui w') = VArr processed /\
  JokeList.error (JokeList.ui w') = None /\
  JokeList.fromCache (JokeList.ui w') = false /\
  JokeList.loading (JokeList.ui w') = false /\
  JokeList.lastUpdated (JokeList.ui w') = Some (Date_toLocaleString (VNum now)) /\
  JokeList.storage w' !! JokeListRefactored.timestampKeyOf category
    = Some (Z_to_string now) /\
  JokeList.storage w' !! JokeListRefactored.storageKeyOf category
    = Some (JSON_stringify (VArr limited)) /\
  JokeList.clock_reads w' = S (JokeList.clock_reads w) /\
  JokeList.requests w'
    = (JokeList.requests w ++ [JokeListRefactored.apiUrlOf category])%list.
Proof.
  intros category now Hnet Hfetch Hok Hjson Hflag Hfalsy Hnorm Hne Hproc Hlim
    Hq1 Hq2 w'.
  subst w'. rewrite (refactored_fetchJokes_miss _ _ Hnet).
  fold category.
  unfold JokeList.try_catch_finally, JokeListRefactored.fetch_and_store,
    JokeList.bind, JokeList.await_fetch, JokeList.lift.
  cbn [JokeList.requests loadingWorld].
  rewrite Hfetch, Hok. cbn [negb JokeList.ret JokeList.throw].
  rewrite Hjson, Hflag, Hfalsy. cbn [JokeList.ret].
  rewrite Hnorm.
  destruct raw as [|x raw]; [congruence|].
  cbn [List.length Nat.eqb JokeList.ret].
  rewrite Hproc.
  unfold JokeList.setJokes, JokeList.setLastUpdated, JokeList.modify_ui,
    JokeList.now, JokeList.saveJokesToStorage, JokeList.localStorage_setItem,
    JokeList.with_storage, JokeListRefactored.formatDate.
  cbn [JokeList.ui JokeList.storage JokeList.requests JokeList.clock_reads
       JokeList.jokes JokeList.loading JokeList.error JokeList.category
       JokeList.fromCache JokeList.lastUpdated loadingWorld loadingState].
  rewrite Hlim.
  cbn [JokeList.ui JokeList.storage JokeList.requests JokeList.clock_reads
       JokeList.jokes JokeList.loading JokeList.error JokeList.category
       JokeList.fromCache JokeList.lastUpdated loadingWorld loadingState].
  unfold LocalStorage.saveJokesToStorage, LocalStorage.setItem.
  rewrite Hq1.
  cbn [JokeList.ui JokeList.storage JokeList.requests JokeList.clock_reads
       JokeList.jokes JokeList.loading JokeList.error JokeList.category
       JokeList.fromCache JokeList.lastUpdated loadingWorld loadingState].
  fold now. rewrite Hq2.
  cbn [fst snd JokeList.setLoading JokeList.modify_ui JokeList.ui JokeList.storage
       JokeList.requests JokeList.clock_reads JokeList.jokes JokeList.loading
       JokeList.error JokeList.category JokeList.fromCache JokeList.lastUpdated].
  repeat split.
  - apply lookup_insert_eq.
  - rewrite lookup_insert_ne; [apply lookup_insert_eq|].
    intros H. symmetry in H.
    exact (storageKey_not_timestampKey category H).
Qed.

End Refactored.

Section RefactoredInstances.

Lemma refactored_agrees_on_cache_hit_witness :
  JokeListRefactored.fetchJokes (host := offlineHost) false
    (sampleWorld failedState storedItems)
  = JokeList.fetchJokes (host := offlineHost) "Dark" false
      (sampleWorld failedState storedItems).
Proof.
  apply (refactored_agrees_on_cache_hit (host := offlineHost)
           (sampleWorld failedState storedItems)).
  vm_compute. reflexivity.
Defined.

Lemma refactored_fetchJokes_commits_witness :
  let w' := snd (JokeListRefactored.fetchJokes (host := setuplessHost) true
                   (sampleWorld JokeList.initialState [])) in
  JokeList.jokes (JokeList.ui w') = VArr [setuplessProcessed] /\
  JokeList.error (JokeList.ui w') = None /\
  JokeList.lastUpdated (JokeList.ui w') = Some "at 1700000000000" /\
  JokeList.storage w' !! "jokes:Programming:timestamp" = Some "1700000000000".
Proof.
  destruct (refactored_fetchJokes_commits (host := setuplessHost) true
              (sampleWorld JokeList.initialState [])
              {| ok := true; status := 200;
                 json := Ok (VObj [("jokes", VArr [setuplessRaw])]) |}
              (VObj [("jokes", VArr [setuplessRaw])]) VUndefined
              [setuplessRaw] [setuplessProcessed]
              [VObj [("id", VNum 7); ("summary", VStr "");
                     ("category", VUndefined); ("type", VStr "twopart")]])
    as (Hjokes & Herror & _ & _ & Hshown & Hstamp & _).
  - left. reflexivity.
  - reflexivity.
  - reflexivity.
  - reflexivity.
  - reflexivity.
  - reflexivity.
  - reflexivity.
  - discriminate.
  - reflexivity.
  - reflexivity.
  - reflexivity.
  - reflexivity.
  - exact (conj Hjokes (conj Herror (conj Hshown Hstamp))).
Defined.

End RefactoredInstances.

(* ===================================================================== *)
(** ** Clearing the cache *)
(* ===================================================================== *)

Section ClearingTheCache.
Context {host : Host}.
Import JokeList.

(** The store on which Clear Cache starts its refetch. *)
Lemma handleClearCache_step (w : World) :
  handleClearCache w
  = fetchJokes (category (ui w)) true
      {| ui := ui w;
         storage := delete (timestampKeyOf (category (ui w)))
                      (delete (storageKeyOf (category (ui w))) (storage w));
         requests := requests w; clock_reads := clock_reads w |}.
Proof. reflexivity. Qed.

Lemma delete_both_twice (key stamp : string) (items : gmap string string) :
  delete stamp (delete key (delete stamp (delete key items)))
  = delete stamp (delete key items).
Proof.
  apply map_eq. intros k.
  destruct (decide (k = stamp)) as [->|Hs].
  { rewrite !lookup_delete_eq. reflexivity. }
  rewrite !(lookup_delete_ne _ stamp k) by congruence.
  destruct (decide (k = key)) as [->|Hk].
  { rewrite !lookup_delete_eq. reflexivity. }
  rewrite !(lookup_delete_ne _ key k) by congruence.
  rewrite !(lookup_delete_ne _ stamp k) by congruence.
  rewrite !(lookup_delete_ne _ key k) by congruence. reflexivity.
Qed.

Lemma delete_both_after_insert (key stamp records time : string)
  (items : gmap string string) :
  delete stamp (delete key (<[key := records]> (<[stamp := time]> items)))
  = delete stamp (delete key (delete key (delete stamp items))).
Proof.
  apply map_eq. intros k.
  destruct (decide (k = stamp)) as [->|Hs].
  { rewrite !lookup_delete_eq. reflexivity. }
  rewrite !(lookup_delete_ne _ stamp k) by congruence.
  destruct (decide (k = key)) as [->|Hk].
  { rewrite !lookup_delete_eq. reflexivity. }
  rewrite !(lookup_delete_ne _ key k) by congruence.
  rewrite !lookup_insert_ne by congruence.
  rewrite !(lookup_delete_ne _ stamp k) by congruence. reflexivity.
Qed.

(** The refetch of Clear Cache, when its request fails. *)
Lemma failed_refetch_world (w : World) (e : exn) :
  fetch (List.length (requests w)) (apiUrlOf (category (ui w))) = Thrown e \/
  (exists r, fetch (List.length (requests w)) (apiUrlOf (category (ui w))) = Ok r /\
             ok r = false) \/
  (exists r, fetch (List.length (requests w)) (apiUrlOf (category (ui w))) = Ok r /\
             ok r = true /\ json r = Thrown e) ->
  exists msg,
    handleClearCache w
    = (Ok tt,
       {| ui := {| jokes := VArr []; loading := false; error := Some msg;
                   category := category (ui w); fromCache := false;
                   lastUpdated := lastUpdated (ui w) |};
          storage := delete (timestampKeyOf (category (ui w)))
                       (delete (storageKeyOf (category (ui w))) (storage w));
          requests := requests w ++ [apiUrlOf (category (ui w))];
          clock_reads := clock_reads w |}).
Proof.
  intros Hfails. rewrite handleClearCache_step.
  match goal with
  | |- context [fetchJokes _ true ?w1] => set (w0 := w1)
  end.
  assert (exists e', fetch_and_store (storageKeyOf (category (ui w)))
                       (category (ui w)) (loadingWorld w0)
                     = (Thrown e',
                        {| ui := ui (loadingWorld w0);
                           storage := storage (loadingWorld w0);
                           requests := requests (loadingWorld w0)
                                         ++ [apiUrlOf (category (ui w))];
                           clock_reads := clock_reads (loadingWorld w0) |}))
    as [e' Hbody].
  { destruct Hfails as [Hrejected | [(r & Hfetch & Hok) | Hbody]].
    - exists e. apply fetch_and_store_rejected. left. exact Hrejected.
    - eexists. apply (fetch_and_store_not_ok _ _ (loadingWorld w0) r Hfetch Hok).
    - exists e. apply fetch_and_store_rejected. right. exact Hbody. }
  exists (message e').
  rewrite (fetchJokes_failed (category (ui w)) true w0 _ e' (or_introl eq_refl) Hbody).
  reflexivity.
Qed.

(** C7. Clear Cache deletes the record key and the timestamp key of the
    current category from the store. In the store the action leaves, the
    keys of other categories hold what they held; whatever the two keys
    held before has no effect on what the action leaves; when the refetch
    that follows fails (request rejected, response not ok, body
    unparsable) both keys are absent; and a second Clear Cache right
    after, failing the same way, leaves the store as the first did.
    Deleting is idempotent at the level of the store as well: for every
    key, the key is absent after one [clearJokesFromStorage] and a second
    one changes nothing. *)
Theorem handleClearCache_deletes_both (w : World) :
  let key := storageKeyOf (category (ui w)) in
  let stamp := timestampKeyOf (category (ui w)) in
  let url := apiUrlOf (category (ui w)) in
  let w' := snd (handleClearCache w) in
  (forall k, k <> key -> k <> stamp -> storage w' !! k = storage w !! k) /\
  (forall records time,
     handleClearCache
       {| ui := ui w;
          storage := <[key := records]> (<[stamp := time]> (storage w));
          requests := requests w; clock_reads := clock_reads w |}
     = handleClearCache
         {| ui := ui w; storage := delete key (delete stamp (storage w));
            requests := requests w; clock_reads := clock_reads w |}) /\
  (forall e,
     fetch (List.length (requests w)) url = Thrown e \/
     (exists r, fetch (List.length (requests w)) url = Ok r /\ ok r = false) \/
     (exists r, fetch (List.length (requests w)) url = Ok r /\
                ok r = true /\ json r = Thrown e) ->
     storage w' !! key = None /\
     storage w' !! stamp = None /\
     storage w' = delete stamp (delete key (storage w))) /\
  (forall e1 e2,
     fetch (List.length (requests w)) url = Thrown e1 ->
     fetch (S (List.length (requests w))) url = Thrown e2 ->
     storage (snd (handleClearCache w')) = storage w' /\
     storage (snd (handleClearCache w')) !! key = None /\
     storage (snd (handleClearCache w')) !! stamp = None) /\
  (forall (k : string) (items : gmap string string),
     LocalStorage.clearJokesFromStorage k items !! k = None /\
     LocalStorage.clearJokesFromStorage k
       (LocalStorage.clearJokesFromStorage k items)
     = LocalStorage.clearJokesFromStorage k items).
Proof.
  intros key stamp url w'.
  pose proof (storageKey_not_timestampKey (category (ui w))) as Hkeys.
  fold key stamp in Hkeys.
  assert (forall items : gmap string string,
             delete stamp (delete key items) !! key = None) as Hrecords.
  { intros items. rewrite lookup_delete_ne by congruence. apply lookup_delete_eq. }
  split; [|split; [|split; [|split]]].
  - intros k Hk1 Hk2. subst w'. rewrite handleClearCache_step.
    rewrite (fetchJokes_other_keys (category (ui w)) true k Hk1 Hk2).
    cbn [storage]. fold key stamp.
    rewrite !lookup_delete_ne by congruence. reflexivity.
  - intros records time. rewrite !handleClearCache_step.
    cbn [ui storage requests clock_reads]. fold key stamp.
    rewrite delete_both_after_insert. reflexivity.
  - intros e Hfails. subst w'.
    destruct (failed_refetch_world w e Hfails) as [msg Heq].
    rewrite Heq. cbn [snd storage]. fold key stamp.
    split; [apply Hrecords|]. split; [apply lookup_delete_eq | reflexivity].
  - intros e1 e2 Hfirst Hsecond. subst w'.
    destruct (failed_refetch_world w e1 (or_introl Hfirst)) as [msg Heq].
    rewrite Heq. cbn [snd].
    match goal with
    | |- context [handleClearCache ?w0] => set (w1 := w0)
    end.
    assert (fetch (List.length (requests w1)) (apiUrlOf (category (ui w1)))
            = Thrown e2) as Hagain.
    { subst w1. cbn [requests ui category]. rewrite length_app. simpl.
      rewrite Nat.add_1_r. exact Hsecond. }
    destruct (failed_refetch_world w1 e2 (or_introl Hagain)) as [msg' Heq'].
    rewrite Heq'. subst w1. cbn [snd storage ui category]. fold key stamp.
    rewrite delete_both_twice.
    split; [reflexivity|]. split; [apply Hrecords | apply lookup_delete_eq].
  - intros k items.
    unfold LocalStorage.clearJokesFromStorage, LocalStorage.removeItem.
    split; [apply lookup_delete_eq|].
    apply map_eq. intros k'.
    destruct (decide (k' = k)) as [->|Hk].
    + rewrite !lookup_delete_eq. reflexivity.
    + rewrite !lookup_delete_ne by congruence. reflexivity.
Qed.

End ClearingTheCache.

Lemma handleClearCache_deletes_both_witness :
  let w' := snd (JokeList.handleClearCache (host := failingHost)
                   (sampleWorld failedState storedItems)) in
  JokeList.storage (sampleWorld failedState storedItems) !! "jokes:Dark"
    = Some (sample_stringify (VArr [sampleShrunk])) /\
  JokeList.storage w' !! "jokes:Dark" = None /\
  JokeList.storage w' !! "jokes:Dark:timestamp" = None.
Proof.
  destruct (handleClearCache_deletes_both (host := failingHost)
              (sampleWorld failedState storedItems))
    as (_ & _ & Hfails & _).
  destruct (Hfails (SyntaxError "Unexpected end of JSON input"))
    as (Hrecords & Hstamp & _).
  - right. left.
    exists {| ok := false; status := 500;
              json := Thrown (SyntaxError "Unexpected end of JSON input") |}.
    split; reflexivity.
  - split; [vm_compute; reflexivity|].
    exact (conj Hrecords Hstamp).
Defined.

(* ===================================================================== *)
(** ** Further properties: a change of category *)
(* ===================================================================== *)

Section CategoryChange.
Context {host : Host}.
Import JokeList.

(** Run without interruption, the two steps are the call. *)
Lemma fetchJokes_in_two_steps (selectedCategory : string) (forceRefresh : bool)
  (w : World) :
  fetchJokes selectedCategory forceRefresh w
  = match fetchJokes_begin selectedCategory forceRefresh w with
    | (Ok (Some n), w1) => fetchJokes_settle selectedCategory n w1
    | (Ok None, w1) => (Ok tt, w1)
    | (Thrown e, w1) => (Thrown e, w1)
    end.
Proof.
  destruct (hit_or_miss selectedCategory forceRefresh w) as [[-> Hhit]|Hnet].
  - rewrite (fetchJokes_hit _ _ _ eq_refl Hhit).
    unfold fetchJokes_begin, bind, loadJokesFromStorage. cbn [negb andb fst snd].
    rewrite Hhit.
    destruct (serve_from_cache_world (storageKeyOf selectedCategory)
                (LocalStorage.loadJokesFromStorage
                   (storageKeyOf selectedCategory) (storage w)) w)
      as (when & reads & Heq & _).
    rewrite Heq. reflexivity.
  - rewrite (fetchJokes_miss _ _ _ Hnet).
    assert (fetchJokes_begin selectedCategory forceRefresh w
            = (Ok (Some (List.length (requests w))),
               {| ui := loadingState (ui w); storage := storage w;
                  requests := requests w ++ [apiUrlOf selectedCategory];
                  clock_reads := clock_reads w |})) as ->.
    { destruct Hnet as [-> | Hmiss]; [reflexivity|].
      destruct forceRefresh; [reflexivity|].
      unfold fetchJokes_begin, bind, loadJokesFromStorage. cbn [negb andb fst snd].
      rewrite Hmiss. reflexivity. }
    reflexivity.
Qed.

Lemma fetchJokes_begin_hit (selectedCategory : string) (w : World) :
  usable (LocalStorage.loadJokesFromStorage (storageKeyOf selectedCategory)
            (storage w)) = true ->
  fetchJokes_begin selectedCategory false w
  = (Ok None,
     snd (serve_from_cache (storageKeyOf selectedCategory)
            (LocalStorage.loadJokesFromStorage (storageKeyOf selectedCategory)
               (storage w)) w)).
Proof.
  intros Hhit.
  unfold fetchJokes_begin, bind, loadJokesFromStorage. cbn [negb andb fst snd].
  rewrite Hhit.
  destruct (serve_from_cache_world (storageKeyOf selectedCategory)
              (LocalStorage.loadJokesFromStorage
                 (storageKeyOf selectedCategory) (storage w)) w)
    as (when & reads & Heq & _).
  rewrite Heq. reflexivity.
Qed.

Lemma fetchJokes_begin_miss (selectedCategory : string) (w : World) :
  usable (LocalStorage.loadJokesFromStorage (storageKeyOf selectedCategory)
            (storage w)) = false ->
  fetchJokes_begin selectedCategory false w
  = (Ok (Some (List.length (requests w))),
     {| ui := loadingState (ui w); storage := storage w;
        requests := requests w ++ [apiUrlOf selectedCategory];
        clock_reads := clock_reads w |}).
Proof.
  intros Hmiss.
  unfold fetchJokes_begin, bind, loadJokesFromStorage. cbn [negb andb fst snd].
  rewrite Hmiss. reflexivity.
Qed.

Lemma settle_ends_loading (selectedCategory : string) (n : nat) (w : World) :
  loading (ui (snd (fetchJokes_settle selectedCategory n w))) = false.
Proof.
  unfold fetchJokes_settle, try_catch_finally.
  destruct (bind _ _ w) as [[[]|e] w1]; reflexivity.
Qed.

Ltac split_statement leaf :=
  repeat first
    [ apply preserves_ret | apply preserves_throw | apply preserves_lift
    | apply preserves_bind; [|intros ?]
    | apply preserves_if
    | solve [leaf] ].

Ltac leaf_by_computation :=
  let w := fresh "w" in
  intros w; unfold localStorage_setItem;
  try match goal with
      | |- context [LocalStorage.setItem ?a ?b ?c] =>
          destruct (LocalStorage.setItem a b c)
      end;
  reflexivity.

(** Settling a request issues no other. *)
Lemma settle_keeps_requests (selectedCategory : string) (n : nat) :
  preserves (fun w => requests w) (fetchJokes_settle selectedCategory n).
Proof.
  unfold fetchJokes_settle.
  apply preserves_try; unfold store_response, on_error;
    [| intros ? |]; split_statement leaf_by_computation.
Qed.

(** Changing to a category the store has no usable entry for starts two
    calls for it: the handler writes [category] and starts
    [fetchJokes(newCategory)] without awaiting it, and the effect that the
    change of [category] re-runs starts a second one before any response
    is there. Two requests for the same URL are then pending with
    [loading] true and the store unwritten; [loading] is false as soon as
    either has settled, while the other is still pending; settling adds no
    request. With a usable entry both calls return from cache at once and
    no request is made. *)
Theorem category_change_fetches_twice (newCategory : string) (w : World) :
  newCategory <> category (ui w) ->
  let n := List.length (requests w) in
  let url := apiUrlOf newCategory in
  let cached :=
    LocalStorage.loadJokesFromStorage (storageKeyOf newCategory) (storage w) in
  let w1 := snd (handleCategoryChange newCategory w) in
  let w2 := snd (categoryEffect_begin w1) in
  fst (handleCategoryChange newCategory w) = Ok tt /\
  category (ui w1) = newCategory /\
  (usable cached = true ->
   fst (categoryEffect_begin w1) = Ok None /\
   requests w2 = requests w /\
   storage w2 = storage w /\
   jokes (ui w2) = cached /\
   fromCache (ui w2) = true /\
   loading (ui w2) = false) /\
  (usable cached = false ->
   requests w1 = (requests w ++ [url])%list /\
   loading (ui w1) = true /\
   fst (categoryEffect_begin w1) = Ok (Some (S n)) /\
   requests w2 = (requests w ++ [url; url])%list /\
   loading (ui w2) = true /\
   storage w2 = storage w /\
   jokes (ui w2) = jokes (ui w) /\
   loading (ui (snd (fetchJokes_settle newCategory n w2))) = false /\
   loading (ui (snd (fetchJokes_settle newCategory (S n) w2))) = false /\
   requests (snd (fetchJokes_settle newCategory (S n)
                    (snd (fetchJokes_settle newCategory n w2))))
     = (requests w ++ [url; url])%list /\
   requests (snd (fetchJokes_settle newCategory n
                    (snd (fetchJokes_settle newCategory (S n) w2))))
     = (requests w ++ [url; url])%list).
Proof.
  intros Hchanged n url cached w1 w2.
  set (w0 := {| ui := {| jokes := jokes (ui w); loading := loading (ui w);
                         error := error (ui w); category := newCategory;
                         fromCache := fromCache (ui w);
                         lastUpdated := lastUpdated (ui w) |};
                storage := storage w; requests := requests w;
                clock_reads := clock_reads w |}).
  assert (handleCategoryChange newCategory w
          = match fetchJokes_begin newCategory false w0 with
            | (Ok _, w') => (Ok tt, w')
            | (Thrown e, w') => (Thrown e, w')
            end) as Hhandler.
  { unfold handleCategoryChange, bind, setCategory, modify_ui. fold w0.
    destruct (fetchJokes_begin newCategory false w0) as [[o|e] w']; reflexivity. }
  destruct (usable cached) eqn:Husable.
  - assert (fetchJokes_begin newCategory false w0
            = (Ok None,
               snd (serve_from_cache (storageKeyOf newCategory) cached w0)))
      as Hbegin by (apply (fetchJokes_begin_hit newCategory w0); exact Husable).
    destruct (serve_from_cache_world (storageKeyOf newCategory) cached w0)
      as (when & reads & Heq & _).
    rewrite Heq in Hbegin. cbn [snd] in Hbegin.
    assert (w1 = snd (fetchJokes_begin newCategory false w0)) as Hw1
      by (subst w1; rewrite Hhandler, Hbegin; reflexivity).
    rewrite Hbegin in Hw1. cbn [snd] in Hw1.
    split; [rewrite Hhandler, Hbegin; reflexivity|].
    split; [rewrite Hw1; reflexivity|].
    split; [|intros H; discriminate H].
    intros _.
    assert (categoryEffect_begin w1
            = (Ok None,
               snd (serve_from_cache (storageKeyOf newCategory) cached w1)))
      as Heffect.
    { unfold categoryEffect_begin.
      assert (category (ui w1) = newCategory) as -> by (rewrite Hw1; reflexivity).
      assert (cached = LocalStorage.loadJokesFromStorage (storageKeyOf newCategory)
                         (storage w1)) as Hsame by (rewrite Hw1; reflexivity).
      rewrite Hsame. apply fetchJokes_begin_hit. rewrite <- Hsame. exact Husable. }
    destruct (serve_from_cache_world (storageKeyOf newCategory) cached w1)
      as (when' & reads' & Heq' & _).
    subst w2. rewrite Heffect, Heq'. cbn [fst snd ui storage requests jokes
                                          fromCache loading].
    rewrite Hw1. repeat split.
  - assert (fetchJokes_begin newCategory false w0
            = (Ok (Some n),
               {| ui := loadingState (ui w0); storage := storage w;
                  requests := requests w ++ [url];
                  clock_reads := clock_reads w |})) as Hbegin
      by (apply (fetchJokes_begin_miss newCategory w0); exact Husable).
    assert (w1 = {| ui := loadingState (ui w0); storage := storage w;
                    requests := requests w ++ [url];
                    clock_reads := clock_reads w |}) as Hw1
      by (subst w1; rewrite Hhandler, Hbegin; reflexivity).
    split; [rewrite Hhandler, Hbegin; reflexivity|].
    split; [rewrite Hw1; reflexivity|].
    split; [intros H; discriminate H|].
    intros _.
    assert (categoryEffect_begin w1
            = (Ok (Some (S n)),
               {| ui := loadingState (ui w1); storage := storage w;
                  requests := (requests w ++ [url]) ++ [url];
                  clock_reads := clock_reads w |})) as Heffect.
    { unfold categoryEffect_begin.
      assert (category (ui w1) = newCategory) as -> by (rewrite Hw1; reflexivity).
      rewrite (fetchJokes_begin_miss newCategory w1).
      - rewrite Hw1. cbn [requests storage clock_reads].
        rewrite length_app. simpl. rewrite Nat.add_1_r. reflexivity.
      - rewrite Hw1. exact Husable. }
    assert (requests w2 = (requests w ++ [url; url])%list) as Hreq2.
    { subst w2. rewrite Heffect. cbn [snd requests].
      rewrite <- app_assoc. reflexivity. }
    split; [rewrite Hw1; reflexivity|].
    split; [rewrite Hw1; reflexivity|].
    split; [rewrite Heffect; reflexivity|].
    split; [exact Hreq2|].
    split; [subst w2; rewrite Heffect; reflexivity|].
    split; [subst w2; rewrite Heffect; reflexivity|].
    split; [subst w2; rewrite Heffect, Hw1; reflexivity|].
    split; [apply settle_ends_loading|].
    split; [apply settle_ends_loading|].
    split.
    + rewrite (settle_keeps_requests newCategory (S n)).
      rewrite (settle_keeps_requests newCategory n). exact Hreq2.
    + rewrite (settle_keeps_requests newCategory n).
      rewrite (settle_keeps_requests newCategory (S n)). exact Hreq2.
Qed.

End CategoryChange.

Lemma category_change_fetches_twice_witness :
  JokeList.requests
    (snd (JokeList.categoryEffect_begin (host := answeringHost)
            (snd (JokeList.handleCategoryChange (host := answeringHost) "Pun"
                    (sampleWorld JokeList.initialState storedItems)))))
  = ["https://v2.jokeapi.dev/joke/Pun?type=single,twopart&amount=50";
     "https://v2.jokeapi.dev/joke/Pun?type=single,twopart&amount=50"].
Proof.
  destruct (category_change_fetches_twice (host := answeringHost) "Pun"
              (sampleWorld JokeList.initialState storedItems))
    as (_ & _ & _ & Hmiss).
  - discriminate.
  - destruct Hmiss as (_ & _ & _ & Hrequests & _).
    + vm_compute. reflexivity.
    + exact Hrequests.
Defined.
